(** * Hybrid retrieval: BM25 ranking and score fusion

    A shallow embedding of [app/rag/hybrid_retriever.py] and the properties
    its specification states about it, followed by the rest of the module
    (the tokenizer, the idf table, the hybrid retriever) and by the hybrid
    branch of the handler [ask] of [app/api/chat_rag.py], its one caller.

    Conventions of the embedding.
    - A Python [float] is modelled twice.  In [BM25], [Fusion] and [Hybrid]
      it is a real number ([R]); what is stated there is about signs, order,
      bounds, errors and the shape of the computed expression, not about the
      last place of a value, and overflow, infinities and NaN are outside
      that model.  [math.log] is the natural logarithm [ln].  Where a
      statement depends on the last place (the scores of the fusion
      scenario, the sum of the divided weights, scaling the weights), it is
      made about [Binary64]: the fusion code over primitive floats, which
      round as Python's floats do.
    - A Python [int] (document index, [top_k], lengths, counts) is a [Z].
    - A Python [str] is its sequence of Unicode code points.
    - A computation that can raise is a value of [Py.result]; where
      indexing or operand types can raise as well, of [PyMore.outcome].
    - [list.sort(key=..., reverse=True)] is a stable sort by descending key;
      for keys in a total order every stable sort gives the same list, so it
      is embedded as a stable insertion sort.
    - The iteration order of a Python [set] is not fixed by the language; the
      fusion code is parameterised by it ([Fusion.SetOrder]). *)

From Stdlib Require Import String Ascii.
From Stdlib Require Import List ZArith NArith Reals Lra Lia Bool.
From Stdlib Require Import Permutation Sorted.
From Stdlib Require Floats.
Import ListNotations.

Set Warnings "-inexact-float".

Open Scope R_scope.

(* ================================================================== *)
(** ** Python values and built-ins used by the module *)
(* ================================================================== *)

Module Py.

(** The exceptions the module's arithmetic can raise. *)
Inductive exn : Set :=
| ZeroDivisionError
| ValueError.

Inductive result (A : Type) : Type :=
| Ok (a : A)
| Raise (e : exn).

Arguments Ok {A} a.
Arguments Raise {A} e.

Definition bind {A B : Type} (c : result A) (k : A -> result B) : result B :=
  match c with
  | Ok a => k a
  | Raise e => Raise e
  end.

Notation "x <- c ;; k" := (bind c (fun x => k))
  (at level 61, c at next level, right associativity).

(** A list comprehension whose element expression can raise. *)
Fixpoint mapM {A B : Type} (f : A -> result B) (l : list A) : result (list B) :=
  match l with
  | [] => Ok []
  | x :: l' =>
      y <- f x ;;
      ys <- mapM f l' ;;
      Ok (y :: ys)
  end.

(** [x / y] on numbers: true division, raising on a zero divisor. *)
Definition truediv (x y : R) : result R :=
  if Req_dec_T y 0 then Raise ZeroDivisionError else Ok (x / y).

(** [math.log(x)]: raises [ValueError] outside its domain. *)
Definition math_log (x : R) : result R :=
  if Rlt_dec 0 x then Ok (ln x) else Raise ValueError.

Definition Rltb (x y : R) : bool := if Rlt_dec x y then true else false.


Definition py_max (x0 : R) (rest : list R) : R :=
  fold_left (fun m x => if Rlt_dec m x then x else m) rest x0.

(** [l[:k]] for an integer [k]: a negative [k] counts from the end. *)
Definition slice_to {A : Type} (k : Z) (l : list A) : list A :=
  if (0 <=? k)%Z then firstn (Z.to_nat k) l
  else firstn (length l - Z.to_nat (- k)) l.

(** [enumerate(l)]. *)
Fixpoint enumerate_from {A : Type} (i : Z) (l : list A) : list (Z * A) :=
  match l with
  | [] => []
  | x :: l' => (i, x) :: enumerate_from (i + 1) l'
  end.

Definition enumerate {A : Type} (l : list A) : list (Z * A) :=
  enumerate_from 0 l.

(** Stable insertion sort: [x], which comes before every element of [l] in
    the input, moves past [y] only when [before y x] holds strictly. *)
Section StableSort.
Context {A : Type} (before : A -> A -> bool).

Fixpoint insert_by (x : A) (l : list A) : list A :=
  match l with
  | [] => [x]
  | y :: l' => if before y x then y :: insert_by x l' else x :: y :: l'
  end.

Definition sort_by (l : list A) : list A := fold_right insert_by [] l.
End StableSort.

(** [l.sort(key=key, reverse=True)]: an element moves past another only
    when its key is strictly smaller. *)
Definition sort_desc {A : Type} (key : A -> R) (l : list A) : list A :=
  sort_by (fun y x => Rltb (key x) (key y)) l.

(** [dict(pairs)]: a later pair with the same key overwrites the value and
    keeps the key's position. *)
Fixpoint dict_set (d : list (Z * R)) (k : Z) (v : R) : list (Z * R) :=
  match d with
  | [] => [(k, v)]
  | (k', v') :: d' =>
      if (k' =? k)%Z then (k, v) :: d' else (k', v') :: dict_set d' k v
  end.

Definition dict (pairs : list (Z * R)) : list (Z * R) :=
  fold_left (fun d kv => dict_set d (fst kv) (snd kv)) pairs [].

(** [d.get(k, default)]. *)
Fixpoint dict_get (d : list (Z * R)) (k : Z) (default : R) : R :=
  match d with
  | [] => default
  | (k', v) :: d' => if (k' =? k)%Z then v else dict_get d' k default
  end.

Definition keys (d : list (Z * R)) : list Z := map fst d.

End Py.

Import Py.

(* ================================================================== *)
(** ** Text: strings as code points, and the tokenizer's patterns *)
(* ================================================================== *)

Module Text.

(** A [str] is the list of its code points; a token is a [str]. *)
Definition pystr : Type := list N.
Definition token : Type := pystr.

Definition token_eq_dec : forall s t : token, {s = t} + {s <> t} :=
  list_eq_dec N.eq_dec.

Definition token_eqb (s t : token) : bool :=
  if token_eq_dec s t then true else false.

(** Source literals are written as UTF-8 text and decoded to code points. *)
Fixpoint utf8_decode (bs : list N) : pystr :=
  match bs with
  | [] => []
  | b0 :: t =>
      if (b0 <? 0x80)%N then b0 :: utf8_decode t
      else if (b0 <? 0xE0)%N then
        match t with
        | b1 :: t1 =>
            ((b0 mod 0x20) * 0x40 + b1 mod 0x40)%N :: utf8_decode t1
        | _ => []
        end
      else if (b0 <? 0xF0)%N then
        match t with
        | b1 :: b2 :: t2 =>
            ((b0 mod 0x10) * 0x1000 + (b1 mod 0x40) * 0x40 + b2 mod 0x40)%N
              :: utf8_decode t2
        | _ => []
        end
      else
        match t with
        | b1 :: b2 :: b3 :: t3 =>
            ((b0 mod 0x08) * 0x40000 + (b1 mod 0x40) * 0x1000
             + (b2 mod 0x40) * 0x40 + b3 mod 0x40)%N
              :: utf8_decode t3
        | _ => []
        end
  end.

Definition str (s : string) : pystr :=
  utf8_decode (map N_of_ascii (list_ascii_of_string s)).

(** The character class of the first pattern: U+4E00 to U+9FFF. *)
Definition is_cjk (c : N) : bool := ((0x4e00 <=? c) && (c <=? 0x9fff))%N.

Definition is_upper (c : N) : bool := ((0x41 <=? c) && (c <=? 0x5a))%N.
Definition is_lower (c : N) : bool := ((0x61 <=? c) && (c <=? 0x7a))%N.

(** The character class of the second pattern: the ASCII letters. *)
Definition is_letter (c : N) : bool := is_upper c || is_lower c.

(** [text.lower()], as far as the pattern of ASCII letters can tell: besides
    [A-Z], the only code points whose lowercase holds an ASCII letter are
    U+0130 (to [i] and U+0307) and U+212A (to [k]); every other code point
    has a lowercase without ASCII letters and is left as it is. *)
Definition lower_cp (c : N) : list N :=
  if is_upper c then [(c + 0x20)%N]
  else if (c =? 0x130)%N then [0x69%N; 0x307%N]
  else if (c =? 0x212A)%N then [0x6B%N]
  else [c].

Definition lower (text : pystr) : pystr := flat_map lower_cp text.

(** [re.findall] with the first pattern: one match per character of the
    class. *)
Definition findall_cjk (text : pystr) : list token :=
  map (fun c => [c]) (filter is_cjk text).

(** [re.findall] with the second pattern: the maximal runs of letters, [run]
    being the run read so far. *)
Fixpoint letter_runs (run : pystr) (text : pystr) : list token :=
  match text with
  | [] => match run with [] => [] | _ => [run] end
  | c :: text' =>
      if is_letter c then letter_runs (run ++ [c]) text'
      else match run with
           | [] => letter_runs [] text'
           | _ => run :: letter_runs [] text'
           end
  end.

Definition findall_words (text : pystr) : list token := letter_runs [] text.

End Text.

Import Text.

(* ================================================================== *)
(** ** The BM25 ranker *)
(* ================================================================== *)

Module BM25.

(** The attributes [__init__] sets. *)
Record BM25Retriever : Type := {
  documents : list pystr;
  k1 : R;
  b : R;
  epsilon : R;
  tokenized_docs : list (list token);
  idf : list (token * R);
  _max_idf : R;
  avg_doc_length : R
}.

(** [_tokenize(text)]. *)
Definition _tokenize (text : pystr) : list token :=
  let chinese_chars := findall_cjk text in
  let english_words := findall_words (lower text) in
  chinese_chars ++ english_words.

(** A [Counter] / [dict] keyed by tokens, in insertion order. *)
Fixpoint counter_incr (c : list (token * Z)) (t : token) : list (token * Z) :=
  match c with
  | [] => [(t, 1%Z)]
  | (t', n) :: c' =>
      if token_eqb t' t then (t', (n + 1)%Z) :: c'
      else (t', n) :: counter_incr c' t
  end.

(** [c.update(ts)] for an iterable of tokens. *)
Definition counter_update (c : list (token * Z)) (ts : list token)
    : list (token * Z) :=
  fold_left counter_incr ts c.

(** [Counter(tokens)[t]], which is 0 for an absent token; [t in Counter(tokens)]
    holds when it is positive. *)
Definition term_count (tokens : list token) (t : token) : Z :=
  Z.of_nat (count_occ token_eq_dec tokens t).

Fixpoint lookup {V : Type} (d : list (token * V)) (t : token) : option V :=
  match d with
  | [] => None
  | (t', v) :: d' => if token_eqb t' t then Some v else lookup d' t
  end.

(** The document-frequency loop of [_build_idf] (lines 75-79); each token of
    [set(tokens)] is visited once, in an order that only decides the order
    of the keys of [df]. *)
Definition document_frequency (docs : list (list token)) : list (token * Z) :=
  fold_left (fun df tokens => counter_update df (nodup token_eq_dec tokens))
            docs [].

(** The idf of one [(term, freq)] item (line 88). *)
Definition idf_entry (total_docs : Z) (item : token * Z) : result (token * R) :=
  let (term, freq) := item in
  ratio <- truediv (IZR (total_docs - freq) + 0.5) (IZR freq + 0.5) ;;
  v <- math_log (ratio + 1.0) ;;
  Ok (term, v).

(** [max(idf.values()) if idf else 0.0]. *)
Definition max_value (d : list (token * R)) : R :=
  match map snd d with
  | [] => 0.0
  | v :: vs => py_max v vs
  end.

(** [_build_idf()]: the floored table and [_max_idf]. *)
Definition _build_idf (tokenized : list (list token)) (eps : R)
    : result (list (token * R) * R) :=
  let df := document_frequency tokenized in
  let total_docs := Z.of_nat (length tokenized) in
  raw <- mapM (idf_entry total_docs) df ;;
  let max_idf := max_value raw in
  Ok (map (fun item => (fst item, py_max (snd item) [max_idf * eps])) raw,
      max_idf).

(** [sum(len(tokens) for tokens in tokenized_docs)]. *)
Definition total_length (tokenized : list (list token)) : Z :=
  fold_left (fun acc tokens => (acc + Z.of_nat (length tokens))%Z) tokenized 0%Z.

(** [BM25Retriever(documents, k1, b, epsilon)]. *)
Definition __init__ (docs : list pystr) (k1 b eps : R) : result BM25Retriever :=
  let tokenized := map _tokenize docs in
  built <- _build_idf tokenized eps ;;
  avg <- truediv (IZR (total_length tokenized))
                 (IZR (Z.of_nat (length tokenized))) ;;
  Ok {| documents := docs; k1 := k1; b := b; epsilon := eps;
        tokenized_docs := tokenized; idf := fst built; _max_idf := snd built;
        avg_doc_length := avg |}.

(** The defaults of the constructor. *)
Definition default_k1 : R := 1.2.
Definition default_b : R := 0.75.
Definition default_epsilon : R := 0.25.

(** One round of the loop of [_score_document] (lines 114-124): the score
    after [token] has been looked at. *)
Definition score_step (self : BM25Retriever) (doc_tokens : list token)
    (doc_length : Z) (score : R) (token : Text.token) : result R :=
  let tf := term_count doc_tokens token in
  match (if (0 <? tf)%Z then lookup (idf self) token else None) with
  | Some idf_t =>
      ratio <- truediv (IZR doc_length) (avg_doc_length self) ;;
      let length_norm := 1 - b self + b self * ratio in
      term <- truediv (idf_t * (IZR tf * (k1 self + 1)))
                      (IZR tf + k1 self * length_norm) ;;
      Ok (score + term)
  | None => Ok score
  end.

Fixpoint score_loop (self : BM25Retriever) (doc_tokens : list token)
    (doc_length : Z) (query_tokens : list token) (score : R) : result R :=
  match query_tokens with
  | [] => Ok score
  | token :: rest =>
      score' <- score_step self doc_tokens doc_length score token ;;
      score_loop self doc_tokens doc_length rest score'
  end.

(** [_score_document(query_tokens, doc_tokens, doc_length)]. *)
Definition _score_document (self : BM25Retriever)
    (query_tokens doc_tokens : list token) (doc_length : Z) : result R :=
  score_loop self doc_tokens doc_length query_tokens 0.0.

(** [retrieve(query, top_k)]. *)
Definition retrieve (self : BM25Retriever) (query : pystr) (top_k : Z)
    : result (list (Z * R)) :=
  let query_tokens := _tokenize query in
  scores <- mapM (fun entry : Z * list token =>
                    let (idx, doc_tokens) := entry in
                    score <- _score_document self query_tokens doc_tokens
                               (Z.of_nat (length doc_tokens)) ;;
                    Ok (idx, score))
                 (enumerate (tokenized_docs self)) ;;
  Ok (slice_to top_k (sort_desc snd scores)).

End BM25.

(* ================================================================== *)
(** ** Score fusion: [normalize_scores] and [combine_results] *)
(* ================================================================== *)

Module Fusion.


(** The order in which [set(a) | set(b)] is iterated, given the keys of the
    two dictionaries.  Python only promises that every element of the union
    is visited once. *)
Record SetOrder : Type := {
  union_iter : list Z -> list Z -> list Z;
  union_iter_NoDup : forall a b, NoDup (union_iter a b);
  union_iter_In : forall a b x, In x (union_iter a b) <-> In x a \/ In x b
}.

(** Lines 337-339: the weights divided by their sum. *)
Definition normalize_weights (semantic_weight bm25_weight : R) : result (R * R) :=
  let total_weight := semantic_weight + bm25_weight in
  sw <- truediv semantic_weight total_weight ;;
  bw <- truediv bm25_weight total_weight ;;
  Ok (sw, bw).

(** The fused pair of one index (the loop body, lines 351-355). *)
Definition hybrid_pair (sw bw : R) (semantic_dict bm25_dict : list (Z * R))
    (idx : Z) : Z * R :=
  let semantic_score := dict_get semantic_dict idx 0 in
  let bm25_score := dict_get bm25_dict idx 0 in
  (idx, sw * semantic_score + bw * bm25_score).

(** [combine_results(semantic_results, bm25_results, semantic_weight,
    bm25_weight, top_k)]. *)
Definition combine_results (O : SetOrder)
    (semantic_results bm25_results : list (Z * R))
    (semantic_weight bm25_weight : R) (top_k : Z) : result (list (Z * R)) :=
  w <- normalize_weights semantic_weight bm25_weight ;;
  let semantic_dict := dict semantic_results in
  let bm25_dict := dict bm25_results in
  let all_indices := union_iter O (keys semantic_dict) (keys bm25_dict) in
  let combined_scores :=
    map (hybrid_pair (fst w) (snd w) semantic_dict bm25_dict) all_indices in
  Ok (slice_to top_k (sort_desc snd combined_scores)).

End Fusion.

(* ================================================================== *)
(** ** Score fusion in binary64 *)
(* ================================================================== *)

(** The program computes with binary64 numbers.  Where a statement depends
    on the last place of a score or of a weight, it is made about this
    module: [combine_results] with the arithmetic of primitive floats, whose
    operations round to nearest, ties to even, as Python's do.  Indices,
    dictionaries, the iteration order, the sort and the slice are as in
    [Fusion].  An int weight such as 7 stands for the float 7.0: on ints
    that a float holds exactly, Python's [+] and [/] give the same sum and
    the same rounded quotient. *)
Module Binary64.

Import PrimFloat.
Local Open Scope float_scope.

(** [x / y]: Python raises when the divisor is zero, of either sign; a
    NaN or infinite divisor raises nothing. *)
Definition truediv (x y : float) : result float :=
  if (y =? 0)%float then Raise ZeroDivisionError else Ok (x / y).

(** [l.sort(key=key, reverse=True)] for float keys: an element moves past
    another only when its key is strictly smaller.  For keys without NaN
    this is the one stable arrangement in descending order. *)
Definition sort_desc {A : Type} (key : A -> float) (l : list A) : list A :=
  sort_by (fun y x => (key x <? key y)%float) l.

(** [dict(pairs)], [d.get(k, default)] and [d.keys()] for float scores. *)
Fixpoint dict_set (d : list (Z * float)) (k : Z) (v : float)
    : list (Z * float) :=
  match d with
  | [] => [(k, v)]
  | (k', v') :: d' =>
      if (k' =? k)%Z then (k, v) :: d' else (k', v') :: dict_set d' k v
  end.

Definition dict (pairs : list (Z * float)) : list (Z * float) :=
  fold_left (fun d kv => dict_set d (fst kv) (snd kv)) pairs [].

Fixpoint dict_get (d : list (Z * float)) (k : Z) (default : float) : float :=
  match d with
  | [] => default
  | (k', v) :: d' => if (k' =? k)%Z then v else dict_get d' k default
  end.

Definition keys (d : list (Z * float)) : list Z := map fst d.

(** Lines 337-339: the weights divided by their sum, each operation
    rounded. *)
Definition normalize_weights (semantic_weight bm25_weight : float)
    : result (float * float) :=
  let total_weight := semantic_weight + bm25_weight in
  sw <- truediv semantic_weight total_weight ;;
  bw <- truediv bm25_weight total_weight ;;
  Ok (sw, bw).

(** The fused pair of one index (the loop body, lines 351-355). *)
Definition hybrid_pair (sw bw : float)
    (semantic_dict bm25_dict : list (Z * float)) (idx : Z) : Z * float :=
  let semantic_score := dict_get semantic_dict idx 0.0 in
  let bm25_score := dict_get bm25_dict idx 0.0 in
  (idx, sw * semantic_score + bw * bm25_score).

(** [combine_results(semantic_results, bm25_results, semantic_weight,
    bm25_weight, top_k)] on binary64 scores and weights. *)
Definition combine_results (O : Fusion.SetOrder)
    (semantic_results bm25_results : list (Z * float))
    (semantic_weight bm25_weight : float) (top_k : Z)
    : result (list (Z * float)) :=
  w <- normalize_weights semantic_weight bm25_weight ;;
  let semantic_dict := dict semantic_results in
  let bm25_dict := dict bm25_results in
  let all_indices :=
    Fusion.union_iter O (keys semantic_dict) (keys bm25_dict) in
  let combined_scores :=
    map (hybrid_pair (fst w) (snd w) semantic_dict bm25_dict) all_indices in
  Ok (slice_to top_k (sort_desc snd combined_scores)).

End Binary64.

Import BM25.
Import Fusion.

(* ================================================================== *)
(** ** Vocabulary of the statements *)
(* ================================================================== *)

Module Statements.

(** *** Order *)

(** [x == y] on scores, as a boolean. *)
Definition Reqb (x y : R) : bool := if Req_dec_T x y then true else false.

(** Descending by key: every element's key is at least the key of each
    later element. *)
Definition descending {A : Type} (key : A -> R) (l : list A) : Prop :=
  StronglySorted (fun p q => key q <= key p) l.

(** [x] occurs before [y] in [l]. *)
Definition precedes {A : Type} (x y : A) (l : list A) : Prop :=
  exists l1 l2 l3, l = l1 ++ x :: l2 ++ y :: l3.

(** The tie-break by ascending index: of two pairs with the same fused
    score, the earlier one has the smaller index. *)
Definition ties_by_ascending_index (r : list (Z * R)) : Prop :=
  forall p q, precedes p q r -> snd p = snd q -> (fst p < fst q)%Z.

(** *** A concrete iteration order *)

(** CPython keeps a set of at most four small non-negative ints in a table
    of eight slots, the int [k] in slot [k mod 8] when that slot is free,
    and iterates over the slots in order.  [slot_iter] lists the union in
    that order (colliding keys stay in insertion order). *)
Definition slot (k : Z) : Z := (k mod 8)%Z.

Definition slot_iter (a b : list Z) : list Z :=
  sort_by (fun y x => (slot y <? slot x)%Z) (nodup Z.eq_dec (a ++ b)).

(** *** The ranker *)

(** While one document is counted, [m] documents having been counted
    before: every count is between 1 and [m + 1], and a token not yet
    counted for this document (not in [done]) still has a count of at most
    [m]. *)
Definition count_bounded (m : Z) (done : list token) (c : list (token * Z))
    : Prop :=
  Forall (fun e => (1 <= snd e <= m + 1)%Z
                   /\ (~ In (fst e) done -> (snd e <= m)%Z)) c.

Definition has_key {V : Type} (d : list (token * V)) (t : token) : Prop :=
  lookup d t <> None.

(** The idf of a term before flooring (line 88). *)
Definition raw_idf (total_docs : Z) (item : token * Z) : R :=
  ln ((IZR (total_docs - snd item) + 0.5) / (IZR (snd item) + 0.5) + 1.0).

Definition raw_table (tokenized : list (list token)) : list (token * R) :=
  map (fun item => (fst item, raw_idf (Z.of_nat (length tokenized)) item))
      (document_frequency tokenized).

Definition idf_table (tokenized : list (list token)) (eps : R)
    : list (token * R) :=
  map (fun item =>
         (fst item, py_max (snd item) [max_value (raw_table tokenized) * eps]))
      (raw_table tokenized).

(** The retriever that [__init__] builds from a non-empty collection. *)
Definition built (docs : list pystr) (k1 b eps : R) : BM25Retriever :=
  let tokenized := map _tokenize docs in
  {| documents := docs; k1 := k1; b := b; epsilon := eps;
     tokenized_docs := tokenized;
     idf := idf_table tokenized eps;
     _max_idf := max_value (raw_table tokenized);
     avg_doc_length :=
       IZR (total_length tokenized) / IZR (Z.of_nat (length tokenized)) |}.

(** The contribution of one matching query token (line 124): idf weight
    [idf_t], term frequency [tf], document length [doc_length]. *)
Definition bm25_term (self : BM25Retriever) (idf_t : R) (tf doc_length : Z) : R :=
  idf_t * (IZR tf * (k1 self + 1))
  / (IZR tf
     + k1 self * (1 - b self + b self * (IZR doc_length / avg_doc_length self))).

(** The weight under which [token] counts for a document: none when the
    document lacks the token or the table has no entry for it. *)
Definition matching (self : BM25Retriever) (doc_tokens : list token)
    (token : Text.token) : option R :=
  if (0 <? term_count doc_tokens token)%Z then lookup (idf self) token else None.

(** The ranking in which every document has score 0.0: the indices
    0, 1, 2, ... in ascending order. *)
Definition zero_scores (n : nat) : list (Z * R) :=
  map (fun i => (Z.of_nat i, 0.0)) (seq 0 n).

(** *** Scenarios *)

Definition scenario_documents : list pystr :=
  [str "深度学习在医学图像分割中的应用";
   str "卷积神经网络在计算机视觉中的研究";
   str "自然语言处理技术的发展与挑战"].

Definition scenario_query : pystr := str "深度学习医学图像".

(** The token lists of the three documents and of the query: one token per
    character. *)
Definition doc0_tokens : list token :=
  Eval vm_compute in _tokenize (nth 0 scenario_documents []).
Definition doc1_tokens : list token :=
  Eval vm_compute in _tokenize (nth 1 scenario_documents []).
Definition doc2_tokens : list token :=
  Eval vm_compute in _tokenize (nth 2 scenario_documents []).
Definition query_tokens : list token :=
  Eval vm_compute in _tokenize scenario_query.

(** Two documents, "a a b" and "a b b": both tokens occur in both. *)
Definition small_documents : list pystr := [str "a a b"; str "a b b"].

Definition small_retriever : BM25Retriever :=
  built small_documents default_k1 default_b default_epsilon.

End Statements.

Import Statements.

(* ================================================================== *)
(** ** Further statements about the ranker and the fusion *)
(* ================================================================== *)

Module RankerStatements.

(** *** Shapes of tokens *)

(** A token of the first pattern: one character of the class. *)
Definition is_cjk_token (t : token) : Prop :=
  exists c, t = [c] /\ is_cjk c = true.

(** A token of the second pattern, after lowercasing: a non-empty run of
    the letters [a] to [z]. *)
Definition is_word_token (t : token) : Prop :=
  t <> [] /\ Forall (fun c => is_lower c = true) t.

(** The number of documents in which [t] occurs. *)
Definition docs_containing (docs : list (list token)) (t : token) : nat :=
  length (filter (fun d => if in_dec token_eq_dec t d then true else false)
                 docs).

(** The count a counter holds for [t], 0 when [t] has no entry. *)
Definition count_of (c : list (token * Z)) (t : token) : Z :=
  match lookup c t with
  | Some n => n
  | None => 0%Z
  end.

(** The test of line 115: [token] counts for the document. *)
Definition counts (self : BM25Retriever) (doc_tokens : list token)
    (token : Text.token) : bool :=
  match matching self doc_tokens token with
  | Some _ => true
  | None => false
  end.

(** The division of line 121 or of line 124 is by zero for [token]: the
    token counts for the document, and the average length, or the
    denominator [tf + k1 * length_norm], is zero. *)
Definition divides_by_zero (self : BM25Retriever) (doc_tokens : list token)
    (doc_length : Z) (token : Text.token) : Prop :=
  matching self doc_tokens token <> None
  /\ (avg_doc_length self = 0
      \/ IZR (term_count doc_tokens token)
         + k1 self * (1 - b self
                      + b self * (IZR doc_length / avg_doc_length self)) = 0).

(** The lists of the tie scenario: indices 1 and 8 with the same semantic
    score, and no lexical results. *)
Definition tie_semantic : list (Z * R) := [(1%Z, 0.5); (8%Z, 0.5)].
Definition tie_bm25 : list (Z * R) := [].
Definition tie_result : list (Z * R) := [(8%Z, 0.35); (1%Z, 0.35)].

End RankerStatements.

Import RankerStatements.

(* ================================================================== *)
(** ** More of Python: indexing, and values of any type *)
(* ================================================================== *)

Module PyMore.

(** The exceptions of the code below: those of the arithmetic, and the two
    that indexing and operand types add. *)
Inductive exception : Set :=
| Builtin (e : exn)
| IndexError
| TypeError.

Inductive outcome (A : Type) : Type :=
| Return (a : A)
| Throw (e : exception).

Arguments Return {A} a.
Arguments Throw {A} e.

Definition lift {A : Type} (c : result A) : outcome A :=
  match c with
  | Ok a => Return a
  | Raise e => Throw (Builtin e)
  end.

Definition obind {A B : Type} (c : outcome A) (k : A -> outcome B)
    : outcome B :=
  match c with
  | Return a => k a
  | Throw e => Throw e
  end.

Notation "x <~ c ;; k" := (obind c (fun x => k))
  (at level 61, c at next level, right associativity).

(** A loop or comprehension whose body can raise. *)
Fixpoint mapO {A B : Type} (f : A -> outcome B) (l : list A)
    : outcome (list B) :=
  match l with
  | [] => Return []
  | x :: l' =>
      y <~ f x ;;
      ys <~ mapO f l' ;;
      Return (y :: ys)
  end.

(** [l[i]]: a negative [i] counts from the end; outside the list it
    raises [IndexError]. *)
Definition getitem {A : Type} (l : list A) (i : Z) : outcome A :=
  let n := Z.of_nat (length l) in
  let j := if (i <? 0)%Z then (i + n)%Z else i in
  if ((0 <=? j) && (j <? n))%Z then
    match nth_error l (Z.to_nat j) with
    | Some x => Return x
    | None => Throw IndexError
    end
  else Throw IndexError.

(** [range(n)]. *)
Definition range (n : nat) : list Z := map Z.of_nat (seq 0 n).

(** The values a result record holds here: an int, a float, a str or
    [None]. *)
Inductive value : Type :=
| VInt (z : Z)
| VFloat (x : R)
| VStr (s : list N)
| VNone.

(** A [dict] with string keys, in insertion order. *)
Definition record : Type := list (string * value).

(** [d.get(k)]. *)
Fixpoint field (d : record) (k : string) : option value :=
  match d with
  | [] => None
  | (k', v) :: d' => if String.eqb k' k then Some v else field d' k
  end.

(** [d[k] = v]. *)
Fixpoint set_field (d : record) (k : string) (v : value) : record :=
  match d with
  | [] => [(k, v)]
  | (k', v') :: d' =>
      if String.eqb k' k then (k, v) :: d' else (k', v') :: set_field d' k v
  end.

(** The number an operand of [*] stands for; a str or [None] times a float
    raises [TypeError]. *)
Definition as_number (v : value) : outcome R :=
  match v with
  | VInt z => Return (IZR z)
  | VFloat x => Return x
  | VStr _ => Throw TypeError
  | VNone => Throw TypeError
  end.

(** [d.get(key, default)] on a dictionary with int keys, for a key of any
    of the types above: a float finds the int it equals, a str or [None]
    finds nothing. *)
Definition get_any (d : list (Z * R)) (key : value) (default : R) : R :=
  match key with
  | VInt z => dict_get d z default
  | VFloat x =>
      match find (fun p => if Req_dec_T (IZR (fst p)) x then true else false) d
      with
      | Some p => snd p
      | None => default
      end
  | VStr _ => default
  | VNone => default
  end.

End PyMore.

Import PyMore.

(* ================================================================== *)
(** ** The hybrid retriever *)
(* ================================================================== *)

Module Hybrid.

(** The attributes [__init__] sets. *)
Record HybridRetriever : Type := {
  documents : list pystr;
  semantic_scores : list (list R);
  semantic_weight : R;
  bm25_weight : R;
  bm25_retriever : BM25Retriever
}.

(** One entry of the list [retrieve] returns. *)
Record entry : Type := {
  index : Z;
  document : pystr;
  semantic_score : R;
  bm25_score : R;
  hybrid_score : R
}.

(** [HybridRetriever(documents, semantic_scores, semantic_weight,
    bm25_weight)]. *)
Definition __init__ (docs : list pystr) (scores : list (list R))
    (sw bw : R) : result HybridRetriever :=
  let total_weight := sw + bw in
  sw' <- truediv sw total_weight ;;
  bw' <- truediv bw total_weight ;;
  ranker <- BM25.__init__ docs default_k1 default_b default_epsilon ;;
  Ok {| documents := docs; semantic_scores := scores;
        semantic_weight := sw'; bm25_weight := bw';
        bm25_retriever := ranker |}.

(** The body of the loop of [retrieve] (lines 223-239). *)
Definition hybrid_entry (self : HybridRetriever)
    (bm25_scores semantic : list (Z * R)) (idx : Z) : outcome entry :=
  let bm25_score := dict_get bm25_scores idx 0.0 in
  let semantic_score := dict_get semantic idx 0.0 in
  let hybrid_score :=
    semantic_weight self * semantic_score + bm25_weight self * bm25_score in
  doc <~ getitem (documents self) idx ;;
  Return {| index := idx; document := doc;
            semantic_score := semantic_score; bm25_score := bm25_score;
            hybrid_score := hybrid_score |}.

(** [retrieve(query, query_embedding, top_k)]. *)
Definition retrieve (self : HybridRetriever) (query : pystr)
    (query_embedding : list R) (top_k : Z) : outcome (list entry) :=
  bm25_results <~ lift (BM25.retrieve (bm25_retriever self) query
                                      (top_k * 2)) ;;
  let bm25_scores := dict bm25_results in
  let semantic :=
    dict (map (fun i => (i, 0.0)) (range (length (documents self)))) in
  hybrid_scores <~ mapO (hybrid_entry self bm25_scores semantic)
                        (range (length (documents self))) ;;
  Return (slice_to top_k (sort_desc hybrid_score hybrid_scores)).

(** The key of the sort of [retrieve_with_rerank]: the field that the loop
    has just set to a float. *)
Definition hybrid_key (r : record) : R :=
  match field r "hybrid_score" with
  | Some (VFloat x) => x
  | Some (VInt z) => IZR z
  | _ => 0
  end.

(** The body of the loop of [retrieve_with_rerank] (lines 271-286). *)
Definition rerank_entry (self : HybridRetriever) (bm25_scores : list (Z * R))
    (result : record) : outcome record :=
  let idx := match field result "index" with
             | Some v => v
             | None => VInt (-1)
             end in
  let semantic_score := match field result "score" with
                        | Some v => v
                        | None => VFloat 0.0
                        end in
  let bm25_score := get_any bm25_scores idx 0.0 in
  s <~ as_number semantic_score ;;
  let hybrid_score := semantic_weight self * s + bm25_weight self * bm25_score in
  let result_copy := result in
  let result_copy := set_field result_copy "bm25_score" (VFloat bm25_score) in
  let result_copy :=
    set_field result_copy "hybrid_score" (VFloat hybrid_score) in
  Return result_copy.

(** [retrieve_with_rerank(query, initial_results, top_k)]. *)
Definition retrieve_with_rerank (self : HybridRetriever) (query : pystr)
    (initial_results : list record) (top_k : Z) : outcome (list record) :=
  bm25_results <~ lift (BM25.retrieve (bm25_retriever self) query
                                      (top_k * 2)) ;;
  let bm25_scores := dict bm25_results in
  reranked <~ mapO (rerank_entry self bm25_scores) initial_results ;;
  Return (slice_to top_k (sort_desc hybrid_key reranked)).

End Hybrid.

(* ================================================================== *)
(** ** The hybrid branch of the question handler *)
(* ================================================================== *)

Module ChatRag.

(** One entry of [scores] (lines 216-220). *)
Record score_entry : Type := {
  index : Z;
  hybrid_score : R;
  retrieval : string
}.

Section Select.
Context {D : Type}.

(** The loop of lines 213-220 over the pairs still to be visited;
    [combined] is the whole fused list, which the body indexes. *)
Fixpoint select_loop (semantic_docs : list D) (combined todo : list (Z * R))
    (relevant_docs : list D) (scores : list score_entry)
    : outcome (list D * list score_entry) :=
  match todo with
  | [] => Return (relevant_docs, scores)
  | (idx, _) :: todo' =>
      if (idx <? Z.of_nat (length semantic_docs))%Z then
        doc <~ getitem semantic_docs idx ;;
        pair <~ getitem combined idx ;;
        select_loop semantic_docs combined todo'
          (relevant_docs ++ [doc])
          (scores ++ [{| index := idx; hybrid_score := snd pair;
                         retrieval := "hybrid" |}])
      else
        select_loop semantic_docs combined todo' relevant_docs scores
  end.

(** Lines 196-220 of [ask]: the lexical ranking of the question over all
    documents, the fusion with the semantic documents (each with score
    1.0), and the choice of the documents to show. *)
Definition hybrid_branch (O : SetOrder) (semantic_docs : list D)
    (all_docs : list pystr) (question : pystr)
    (semantic_weight bm25_weight : R)
    : outcome (list D * list score_entry) :=
  bm25_retriever <~ lift (BM25.__init__ all_docs default_k1 default_b
                                        default_epsilon) ;;
  bm25_results <~ lift (BM25.retrieve bm25_retriever question 10) ;;
  let semantic_scores :=
    map (fun e => (fst e, 1.0)) (enumerate semantic_docs) in
  combined <~ lift (combine_results O semantic_scores bm25_results
                                    semantic_weight bm25_weight 5) ;;
  select_loop semantic_docs combined combined [] [].

End Select.

End ChatRag.

(* ================================================================== *)
(** ** Statements about the hybrid retriever and the handler *)
(* ================================================================== *)

Module HybridStatements.


(** The entry [retrieve] of the hybrid retriever makes for the document
    [idx], given the lexical results it has asked for. *)
Definition entry_of (self : Hybrid.HybridRetriever)
    (bm25_results : list (Z * R)) (idx : Z) : Hybrid.entry :=
  {| Hybrid.index := idx;
     Hybrid.document := nth (Z.to_nat idx) (Hybrid.documents self) [];
     Hybrid.semantic_score := 0.0;
     Hybrid.bm25_score := dict_get (dict bm25_results) idx 0.0;
     Hybrid.hybrid_score :=
       Hybrid.semantic_weight self * 0.0
       + Hybrid.bm25_weight self * dict_get (dict bm25_results) idx 0.0 |}.

(** The pairs of a fused list whose index is below the number of semantic
    documents: the ones the handler keeps. *)
Definition chosen {D : Type} (semantic_docs : list D)
    (combined : list (Z * R)) : list (Z * R) :=
  filter (fun p => (fst p <? Z.of_nat (length semantic_docs))%Z) combined.

(** The score entry the handler writes for a kept pair: the index of the
    pair, with the score found at that position of the fused list. *)
Definition reported (combined : list (Z * R)) (p : Z * R)
    : ChatRag.score_entry :=
  {| ChatRag.index := fst p;
     ChatRag.hybrid_score := snd (nth (Z.to_nat (fst p)) combined (0%Z, 0));
     ChatRag.retrieval := "hybrid" |}.

(** A hybrid retriever over the two small documents, with its weights
    already normalised. *)
Definition small_hybrid : Hybrid.HybridRetriever :=
  {| Hybrid.documents := small_documents;
     Hybrid.semantic_scores := [];
     Hybrid.semantic_weight := 0.7;
     Hybrid.bm25_weight := 0.3;
     Hybrid.bm25_retriever := small_retriever |}.

(** The three calls of the hybrid branch of [ask] (lines 198-209) return,
    the last one [combined]. *)
Definition fused {D : Type} (O : SetOrder) (semantic_docs : list D)
    (all_docs : list pystr) (question : pystr)
    (semantic_weight bm25_weight : R) (combined : list (Z * R)) : Prop :=
  exists ranker bm25_results,
    BM25.__init__ all_docs default_k1 default_b default_epsilon = Ok ranker
    /\ BM25.retrieve ranker question 10 = Ok bm25_results
    /\ combine_results O
         (map (fun e => (fst e, 1.0)) (enumerate semantic_docs))
         bm25_results semantic_weight bm25_weight 5
       = Ok combined.

(** [result.get(key, default)] on a result record. *)
Definition get_field (r : record) (key : string) (default : value) : value :=
  match field r key with
  | Some v => v
  | None => default
  end.

(** A value that is not a number: the product of a float and such a value
    raises [TypeError]. *)
Definition not_a_number (v : value) : Prop :=
  match v with
  | VStr _ | VNone => True
  | VInt _ | VFloat _ => False
  end.

(** Three result records of a semantic search: a complete one, one with
    no index, one with neither index nor score. *)
Definition small_results : list record :=
  [ [("index"%string, VInt 1); ("score"%string, VFloat 0.5);
     ("title"%string, VStr (str "b"))];
    [("score"%string, VInt 1)];
    [] ].


End HybridStatements.

Import HybridStatements.

(* ================================================================== *)
(** ** Facts about the built-ins *)
(* ================================================================== *)

Module PyFacts.

Lemma bind_Ok {A B : Type} (c : result A) (k : A -> result B) (y : B) :
  bind c k = Ok y -> exists x, c = Ok x /\ k x = Ok y.
Proof.
  destruct c as [x | e]; simpl; intros H.
  - exists x. split; [reflexivity | exact H].
  - discriminate H.
Qed.

Lemma truediv_Ok (x y : R) : y <> 0 -> truediv x y = Ok (x / y).
Proof.
  intros Hy. unfold truediv. destruct (Req_dec_T y 0) as [E | _].
  - contradiction.
  - reflexivity.
Qed.

Lemma truediv_zero (x : R) : truediv x 0 = Raise ZeroDivisionError.
Proof.
  unfold truediv. destruct (Req_dec_T 0 0) as [_ | N].
  - reflexivity.
  - exfalso. apply N. reflexivity.
Qed.

Lemma Rltb_true (x y : R) : x < y -> Rltb x y = true.
Proof. intros H. unfold Rltb. destruct (Rlt_dec x y); [reflexivity | contradiction]. Qed.

Lemma Rltb_false (x y : R) : y <= x -> Rltb x y = false.
Proof. intros H. unfold Rltb. destruct (Rlt_dec x y); [lra | reflexivity]. Qed.

(** A comprehension none of whose elements raises is a [map]. *)
Lemma mapM_total {A B : Type} (f : A -> result B) (g : A -> B) (l : list A) :
  (forall x, In x l -> f x = Ok (g x)) -> mapM f l = Ok (map g l).
Proof.
  induction l as [| x l IH]; simpl; intros H.
  - reflexivity.
  - rewrite (H x (or_introl eq_refl)). simpl.
    rewrite IH by (intros y Hy; apply H; right; exact Hy).
    reflexivity.
Qed.

Section SortFacts.
Context {A : Type} (before : A -> A -> bool).

Lemma insert_by_perm (x : A) (l : list A) :
  Permutation (insert_by before x l) (x :: l).
Proof.
  induction l as [| y l IH]; simpl.
  - apply Permutation_refl.
  - destruct (before y x).
    + apply Permutation_trans with (y :: x :: l).
      * apply perm_skip. exact IH.
      * apply perm_swap.
    + apply Permutation_refl.
Qed.

Lemma sort_by_perm (l : list A) : Permutation (sort_by before l) l.
Proof.
  induction l as [| x l IH]; simpl.
  - apply perm_nil.
  - apply Permutation_trans with (x :: sort_by before l).
    + apply insert_by_perm.
    + apply perm_skip. exact IH.
Qed.

(** Elements that [x] never moves past keep their place behind it:
    a filter that rejects whatever [x] can pass sees [x] in front. *)
Lemma filter_insert_by (f : A -> bool) (x : A) (l : list A) :
  (forall y, before y x = true -> f x = true -> f y = false) ->
  filter f (insert_by before x l) = filter f (x :: l).
Proof.
  intros Hpass. induction l as [| y l IH]; simpl.
  - reflexivity.
  - destruct (before y x) eqn:Eb; simpl.
    + rewrite IH. simpl. destruct (f x) eqn:Ex.
      * rewrite (Hpass y Eb eq_refl). reflexivity.
      * reflexivity.
    + reflexivity.
Qed.
End SortFacts.

Lemma Reqb_true (x y : R) : Reqb x y = true <-> x = y.
Proof.
  unfold Reqb. destruct (Req_dec_T x y); split; intros H;
    try reflexivity; try assumption; try discriminate; contradiction.
Qed.

Section SortDesc.
Context {A : Type} (key : A -> R).

Lemma sort_desc_perm (l : list A) : Permutation (sort_desc key l) l.
Proof. apply sort_by_perm. Qed.

Lemma insert_desc_sorted (x : A) (l : list A) :
  descending key l ->
  descending key (insert_by (fun y x => Rltb (key x) (key y)) x l).
Proof.
  unfold descending. induction l as [| y l IH]; simpl; intros Hs.
  - constructor; constructor.
  - inversion Hs as [| y' l' Hl Hy]; subst.
    unfold Rltb at 1. destruct (Rlt_dec (key x) (key y)) as [Hlt | Hge].
    + constructor.
      * apply IH. exact Hl.
      * apply Forall_forall. intros z Hz.
        apply (Permutation_in _ (insert_by_perm _ x l)) in Hz.
        destruct Hz as [<- | Hz].
        -- lra.
        -- rewrite Forall_forall in Hy. apply Hy. exact Hz.
    + constructor.
      * exact Hs.
      * constructor.
        -- lra.
        -- rewrite Forall_forall in Hy |- *. intros z Hz.
           specialize (Hy z Hz). lra.
Qed.

Lemma sort_desc_sorted (l : list A) : descending key (sort_desc key l).
Proof.
  induction l as [| x l IH].
  - constructor.
  - apply insert_desc_sorted. exact IH.
Qed.

(** Stability: the elements of one key keep their input order. *)
Lemma sort_desc_stable (s : R) (l : list A) :
  filter (fun p => Reqb (key p) s) (sort_desc key l)
  = filter (fun p => Reqb (key p) s) l.
Proof.
  induction l as [| x l IH].
  - reflexivity.
  - change (sort_desc key (x :: l))
      with (insert_by (fun y x0 => Rltb (key x0) (key y)) x (sort_desc key l)).
    rewrite filter_insert_by.
    + simpl. rewrite IH. reflexivity.
    + intros y Hb Hx. apply Reqb_true in Hx.
      unfold Rltb in Hb. destruct (Rlt_dec (key x) (key y)) as [Hlt | ];
        [| discriminate].
      unfold Reqb. destruct (Req_dec_T (key y) s); [lra | reflexivity].
Qed.

(** A list that is already descending is left as it is. *)
Lemma sort_desc_id (l : list A) : descending key l -> sort_desc key l = l.
Proof.
  unfold descending, sort_desc. induction l as [| x l IH]; intros Hs.
  - reflexivity.
  - inversion Hs as [| x' l' Hl Hx]; subst. simpl. rewrite (IH Hl).
    destruct l as [| y l]; simpl.
    + reflexivity.
    + rewrite Rltb_false; [reflexivity |].
      inversion Hx; subst. assumption.
Qed.

(** A descending list that is a permutation of a strictly descending one
    is that list. *)
Lemma descending_unique (l l' : list A) :
  descending key l ->
  StronglySorted (fun p q => key q < key p) l' ->
  Permutation l l' -> l = l'.
Proof.
  unfold descending. revert l'.
  induction l as [| x l IH]; intros l' Hs Hs' Hp.
  - apply Permutation_nil in Hp. subst. reflexivity.
  - destruct l' as [| x' l'].
    + apply Permutation_sym, Permutation_nil in Hp. discriminate.
    + inversion Hs as [| ? ? Hl Hx]; subst.
      inversion Hs' as [| ? ? Hl' Hx']; subst.
      rewrite Forall_forall in Hx, Hx'.
      assert (E : x = x').
      { assert (I1 : In x (x' :: l'))
          by (apply (Permutation_in _ Hp); left; reflexivity).
        assert (I2 : In x' (x :: l))
          by (apply (Permutation_in _ (Permutation_sym Hp)); left; reflexivity).
        destruct I1 as [E | I1]; [symmetry; exact E |].
        destruct I2 as [E | I2]; [exact E |].
        specialize (Hx _ I2). specialize (Hx' _ I1). lra. }
      subst x'. f_equal. apply IH; try assumption.
      apply Permutation_cons_inv with x. exact Hp.
Qed.

Lemma descending_firstn (n : nat) (l : list A) :
  descending key l -> descending key (firstn n l).
Proof.
  unfold descending. revert n. induction l as [| x l IH]; intros n Hs.
  - rewrite firstn_nil. constructor.
  - destruct n as [| n]; simpl.
    + constructor.
    + inversion Hs as [| ? ? Hl Hx]; subst. constructor.
      * apply IH. exact Hl.
      * rewrite Forall_forall in Hx |- *. intros y Hy.
        apply Hx. rewrite <- (firstn_skipn n l). apply in_or_app.
        left. exact Hy.
Qed.

Lemma descending_slice (k : Z) (l : list A) :
  descending key l -> descending key (slice_to k l).
Proof.
  intros Hs. unfold slice_to.
  destruct (0 <=? k)%Z; apply descending_firstn; exact Hs.
Qed.
End SortDesc.

(** A slice [l[:k]] is a prefix of [l]. *)
Lemma slice_to_prefix {A : Type} (k : Z) (l : list A) :
  exists rest, l = slice_to k l ++ rest.
Proof.
  unfold slice_to. destruct (0 <=? k)%Z.
  - exists (skipn (Z.to_nat k) l). symmetry. apply firstn_skipn.
  - exists (skipn (length l - Z.to_nat (- k)) l). symmetry. apply firstn_skipn.
Qed.

Lemma slice_to_all {A : Type} (k : Z) (l : list A) :
  (Z.of_nat (length l) <= k)%Z -> slice_to k l = l.
Proof.
  intros H. unfold slice_to.
  destruct (0 <=? k)%Z eqn:E.
  - apply firstn_all2. lia.
  - apply Z.leb_gt in E. lia.
Qed.

(** *** Extremes *)


Lemma py_max_ge (x0 : R) (rest : list R) :
  x0 <= py_max x0 rest /\ Forall (fun x => x <= py_max x0 rest) rest.
Proof.
  unfold py_max. revert x0. induction rest as [| y rest IH]; intros x0; simpl.
  - split; [lra | constructor].
  - destruct (IH (if Rlt_dec x0 y then y else x0)) as [H1 H2].
    destruct (Rlt_dec x0 y) as [Hlt | Hge].
    + split; [lra |]. constructor; [exact H1 | exact H2].
    + split; [exact H1 |]. constructor; [lra | exact H2].
Qed.



End PyFacts.

Import PyFacts.

(* ================================================================== *)
(** ** Properties of score fusion *)
(* ================================================================== *)

Module FusionSpec.

(** *** A concrete iteration order *)

Lemma slot_iter_NoDup (a b : list Z) : NoDup (slot_iter a b).
Proof.
  unfold slot_iter.
  apply (Permutation_NoDup (Permutation_sym (sort_by_perm _ _))).
  apply NoDup_nodup.
Qed.

Lemma slot_iter_In (a b : list Z) (x : Z) :
  In x (slot_iter a b) <-> In x a \/ In x b.
Proof.
  unfold slot_iter. rewrite <- in_app_iff.
  rewrite <- (nodup_In Z.eq_dec (a ++ b) x).
  split; apply Permutation_in.
  - apply sort_by_perm.
  - apply Permutation_sym, sort_by_perm.
Qed.

Definition slot_order : SetOrder :=
  {| union_iter := slot_iter;
     union_iter_NoDup := slot_iter_NoDup;
     union_iter_In := slot_iter_In |}.

(** *** Weights *)

Lemma normalize_weights_Ok (sw bw : R) :
  sw + bw <> 0 ->
  normalize_weights sw bw = Ok (sw / (sw + bw), bw / (sw + bw)).
Proof.
  intros H. unfold normalize_weights.
  rewrite !truediv_Ok by exact H. reflexivity.
Qed.

Lemma normalize_weights_zero (sw bw : R) :
  sw + bw = 0 -> normalize_weights sw bw = Raise ZeroDivisionError.
Proof.
  intros H. unfold normalize_weights. rewrite H, truediv_zero. reflexivity.
Qed.

(** [combine_results] once the weights are known. *)
Lemma combine_results_Ok (O : SetOrder) (sem bm : list (Z * R))
    (sw bw : R) (k : Z) :
  sw + bw <> 0 ->
  combine_results O sem bm sw bw k
  = Ok (slice_to k
          (sort_desc snd
             (map (hybrid_pair (sw / (sw + bw)) (bw / (sw + bw))
                               (dict sem) (dict bm))
                  (union_iter O (keys (dict sem)) (keys (dict bm)))))).
Proof.
  intros H. unfold combine_results.
  rewrite (normalize_weights_Ok sw bw H). reflexivity.
Qed.



(** *** Order of the result *)

Lemma precedes_prefix {A : Type} (x y : A) (l rest : list A) :
  precedes x y l -> precedes x y (l ++ rest).
Proof.
  intros (l1 & l2 & l3 & ->). exists l1, l2, (l3 ++ rest).
  rewrite <- !app_assoc. simpl. rewrite <- app_assoc. reflexivity.
Qed.

Lemma precedes_filter {A : Type} (f : A -> bool) (x y : A) (l : list A) :
  f x = true -> f y = true -> precedes x y l -> precedes x y (filter f l).
Proof.
  intros Hx Hy (l1 & l2 & l3 & ->).
  exists (filter f l1), (filter f l2), (filter f l3).
  rewrite filter_app. simpl. rewrite Hx, filter_app. simpl. rewrite Hy.
  reflexivity.
Qed.

Lemma filter_eq_app_cons {A : Type} (f : A -> bool) (l a c : list A) (x : A) :
  filter f l = a ++ x :: c ->
  exists l1 l2, l = l1 ++ x :: l2 /\ filter f l1 = a /\ filter f l2 = c.
Proof.
  revert a. induction l as [| y l IH]; simpl; intros a H.
  - destruct a; discriminate H.
  - destruct (f y) eqn:Ey.
    + destruct a as [| a0 a]; simpl in H.
      * injection H as -> Hc. exists [], l. simpl. auto.
      * injection H as -> Hc. destruct (IH a Hc) as (l1 & l2 & -> & H1 & H2).
        exists (a0 :: l1), l2. simpl. rewrite Ey, H1. auto.
    + destruct (IH a H) as (l1 & l2 & -> & H1 & H2).
      exists (y :: l1), l2. simpl. rewrite Ey. auto.
Qed.

Lemma precedes_of_filter {A : Type} (f : A -> bool) (x y : A) (l : list A) :
  precedes x y (filter f l) -> precedes x y l.
Proof.
  intros (a & c & d & H).
  apply filter_eq_app_cons in H. destruct H as (l1 & l2 & -> & _ & H2).
  apply filter_eq_app_cons in H2. destruct H2 as (m1 & m2 & -> & _ & _).
  exists l1, m1, m2. reflexivity.
Qed.

Lemma precedes_of_map {A B : Type} (h : A -> B) (g : B -> A) (p q : B)
    (l : list A) :
  (forall a, g (h a) = a) ->
  precedes p q (map h l) -> precedes (g p) (g q) l.
Proof.
  intros Hg (l1 & l2 & l3 & H).
  apply map_eq_app in H. destruct H as (m1 & n1 & -> & _ & H).
  apply map_eq_cons in H. destruct H as (i & n2 & -> & <- & H).
  apply map_eq_app in H. destruct H as (m2 & n3 & -> & _ & H).
  apply map_eq_cons in H. destruct H as (j & m3 & -> & <- & _).
  rewrite !Hg. exists m1, m2, m3. reflexivity.
Qed.

(** *** The claims about [combine_results] *)

(** The index set {1, 8} with equal scores: the result under [slot_order]. *)
Lemma tie_scenario_result :
  combine_results slot_order [(1%Z, 0.5); (8%Z, 0.5)] [] 0.7 0.3 5
  = Ok [(8%Z, 0.35); (1%Z, 0.35)].
Proof.
  rewrite combine_results_Ok by lra.
  assert (Hd : dict [(1%Z, 0.5); (8%Z, 0.5)] = [(1%Z, 0.5); (8%Z, 0.5)])
    by reflexivity.
  rewrite Hd.
  change (union_iter slot_order (keys [(1%Z, 0.5); (8%Z, 0.5)])
                     (keys (dict [])))
    with [8%Z; 1%Z].
  assert (Hm : map (hybrid_pair (0.7 / (0.7 + 0.3)) (0.3 / (0.7 + 0.3))
                      [(1%Z, 0.5); (8%Z, 0.5)] (dict []))
                   [8%Z; 1%Z]
               = [(8%Z, 0.35); (1%Z, 0.35)]).
  { unfold hybrid_pair. simpl.
    f_equal; [f_equal; lra | f_equal; f_equal; lra]. }
  rewrite Hm. rewrite sort_desc_id.
  - reflexivity.
  - repeat constructor; simpl; lra.
Qed.

(** C3, as the specification states it, fails: CPython iterates the index
    set {1, 8} as 8, 1, so two indices with the same fused score come out
    with the larger index first. *)
Lemma combine_results_tie_break_counterexample :
  combine_results slot_order [(1%Z, 0.5); (8%Z, 0.5)] [] 0.7 0.3 5
  = Ok [(8%Z, 0.35); (1%Z, 0.35)]
  /\ ~ ties_by_ascending_index [(8%Z, 0.35); (1%Z, 0.35)].
Proof.
  split; [exact tie_scenario_result |].
  intros H. specialize (H (8%Z, 0.35) (1%Z, 0.35)).
  assert (Hlt : (8 < 1)%Z).
  { apply H; [| reflexivity]. exists [], [], []. reflexivity. }
  lia.
Qed.

(** C3, amended. The result of [combine_results] is in descending order of
    fused score, and two result pairs with the same fused score come in the
    order in which the index set is iterated (the sort is stable); that
    order need not be ascending. *)
Theorem combine_results_sorted_stable (O : SetOrder) (sem bm : list (Z * R))
    (sw bw : R) (k : Z) (r : list (Z * R)) :
  combine_results O sem bm sw bw k = Ok r ->
  descending snd r
  /\ forall p q, precedes p q r -> snd p = snd q ->
       precedes (fst p) (fst q)
                (union_iter O (keys (dict sem)) (keys (dict bm))).
Proof.
  intros H. unfold combine_results in H.
  apply bind_Ok in H. destruct H as (w & _ & H). injection H as <-.
  set (h := hybrid_pair (fst w) (snd w) (dict sem) (dict bm)).
  set (it := union_iter O (keys (dict sem)) (keys (dict bm))).
  split.
  - apply descending_slice, sort_desc_sorted.
  - intros p q Hpq Heq.
    destruct (slice_to_prefix k (sort_desc snd (map h it))) as (rest & Hrest).
    apply (precedes_prefix _ _ _ rest) in Hpq. rewrite <- Hrest in Hpq.
    apply (precedes_filter (fun e => Reqb (snd e) (snd p))) in Hpq.
    + rewrite sort_desc_stable in Hpq. apply precedes_of_filter in Hpq.
      apply (precedes_of_map h fst); [reflexivity | exact Hpq].
    + apply Reqb_true. reflexivity.
    + apply Reqb_true. symmetry. exact Heq.
Qed.

Lemma combine_results_sorted_stable_witness :
  descending snd [(8%Z, 0.35); (1%Z, 0.35)]
  /\ forall p q, precedes p q [(8%Z, 0.35); (1%Z, 0.35)] -> snd p = snd q ->
       precedes (fst p) (fst q)
                (union_iter slot_order (keys (dict [(1%Z, 0.5); (8%Z, 0.5)]))
                            (keys (dict []))).
Proof.
  apply (combine_results_sorted_stable slot_order
           [(1%Z, 0.5); (8%Z, 0.5)] [] 0.7 0.3 5).
  exact tie_scenario_result.
Defined.

End FusionSpec.

(* ================================================================== *)
(** ** Properties of the BM25 ranker *)
(* ================================================================== *)

Module BM25Spec.

(** *** Document frequencies *)

Lemma token_eqb_true (s t : token) : token_eqb s t = true <-> s = t.
Proof.
  unfold token_eqb. destruct (token_eq_dec s t); split; intros H;
    try reflexivity; try assumption; try discriminate; contradiction.
Qed.

Lemma token_eqb_refl (t : token) : token_eqb t t = true.
Proof. apply token_eqb_true. reflexivity. Qed.

Lemma count_bounded_weaken (m : Z) (done : list token) (t : token)
    (c : list (token * Z)) :
  count_bounded m done c -> count_bounded m (t :: done) c.
Proof.
  unfold count_bounded. apply Forall_impl. intros e [H1 H2].
  split; [exact H1 |]. intros N. apply H2. intros I. apply N. right. exact I.
Qed.

Lemma counter_incr_bounded (m : Z) (done : list token) (t : token)
    (c : list (token * Z)) :
  (0 <= m)%Z -> ~ In t done ->
  count_bounded m done c -> count_bounded m (t :: done) (counter_incr c t).
Proof.
  intros Hm Ht. unfold count_bounded.
  induction c as [| [t' n] c IH]; simpl; intros Hc.
  - constructor; [| constructor]. simpl. split; [lia |].
    intros N. exfalso. apply N. left. reflexivity.
  - inversion Hc as [| ? ? [Hn1 Hn2] Hc']; subst. simpl in Hn1, Hn2.
    destruct (token_eqb t' t) eqn:E.
    + apply token_eqb_true in E. subst t'. constructor.
      * simpl. specialize (Hn2 Ht). split; [lia |].
        intros N. exfalso. apply N. left. reflexivity.
      * apply count_bounded_weaken. exact Hc'.
    + constructor.
      * simpl. split; [exact Hn1 |]. intros N. apply Hn2.
        intros I. apply N. right. exact I.
      * apply IH. exact Hc'.
Qed.

Lemma counter_update_bounded (m : Z) (ts : list token) :
  (0 <= m)%Z -> NoDup ts ->
  forall done c,
    (forall t, In t ts -> ~ In t done) ->
    count_bounded m done c ->
    Forall (fun e => (1 <= snd e <= m + 1)%Z) (counter_update c ts).
Proof.
  intros Hm Hnd. unfold counter_update.
  induction Hnd as [| t ts Ht Hnd IH]; simpl; intros done c Hfresh Hc.
  - revert Hc. apply Forall_impl. intros e [H _]. exact H.
  - apply (IH (t :: done)).
    + intros t' I [E | I'].
      * subst t'. contradiction.
      * apply (Hfresh t'); [right; exact I | exact I'].
    + apply counter_incr_bounded; [exact Hm | | exact Hc].
      apply Hfresh. left. reflexivity.
Qed.

(** Every document frequency lies between 1 and the number of documents. *)
Lemma document_frequency_bounded (docs : list (list token)) :
  Forall (fun e => (1 <= snd e <= Z.of_nat (length docs))%Z)
         (document_frequency docs).
Proof.
  unfold document_frequency.
  assert (G : forall ds c m, (0 <= m)%Z ->
            Forall (fun e => (1 <= snd e <= m)%Z) c ->
            Forall (fun e => (1 <= snd e <= m + Z.of_nat (length ds))%Z)
                   (fold_left
                      (fun df tokens =>
                         counter_update df (nodup token_eq_dec tokens))
                      ds c)).
  { induction ds as [| d ds IH]; simpl fold_left; intros c m Hm Hc.
    - simpl. revert Hc. apply Forall_impl. intros e H. lia.
    - replace (m + Z.of_nat (length (d :: ds)))%Z
        with ((m + 1) + Z.of_nat (length ds))%Z by (simpl length; lia).
      apply IH; [lia |].
      apply (counter_update_bounded m _ Hm (NoDup_nodup _ _) []).
      + intros t _ [].
      + revert Hc. apply Forall_impl. intros e H. split; [lia |].
        intros _. lia. }
  apply (G docs [] 0%Z); [lia | constructor].
Qed.

(** *** Keys of the tables *)

Lemma has_key_counter_incr (c : list (token * Z)) (t t' : token) :
  has_key (counter_incr c t) t' <-> t' = t \/ has_key c t'.
Proof.
  unfold has_key. induction c as [| [u n] c IH]; simpl.
  - destruct (token_eqb t t') eqn:E.
    + apply token_eqb_true in E. subst. split; [auto | discriminate].
    + split; [intros H; contradiction |].
      intros [-> | H]; [| contradiction].
      rewrite token_eqb_refl in E. discriminate.
  - destruct (token_eqb u t) eqn:Eu; simpl.
    + apply token_eqb_true in Eu. subst u.
      destruct (token_eqb t t') eqn:E.
      * split; [intros _; right; discriminate | discriminate].
      * split; [auto |]. intros [-> | H]; [| exact H].
        rewrite token_eqb_refl in E. discriminate.
    + destruct (token_eqb u t') eqn:E.
      * split; [intros _; right; discriminate | discriminate].
      * exact IH.
Qed.

Lemma has_key_counter_update (ts : list token) (c : list (token * Z))
    (t' : token) :
  has_key (counter_update c ts) t' <-> In t' ts \/ has_key c t'.
Proof.
  unfold counter_update. revert c.
  induction ts as [| t ts IH]; simpl; intros c.
  - tauto.
  - rewrite IH, has_key_counter_incr. intuition congruence.
Qed.

(** The keys of the document-frequency table are the tokens of the
    documents. *)
Lemma has_key_document_frequency (docs : list (list token)) (t : token) :
  has_key (document_frequency docs) t <-> exists d, In d docs /\ In t d.
Proof.
  unfold document_frequency.
  assert (G : forall ds c,
            has_key (fold_left
                       (fun df tokens =>
                          counter_update df (nodup token_eq_dec tokens))
                       ds c) t
            <-> (exists d, In d ds /\ In t d) \/ has_key c t).
  { induction ds as [| d ds IH]; simpl; intros c.
    - split; [auto |]. intros [(d & [] & _) | H]. exact H.
    - rewrite IH, has_key_counter_update, nodup_In. split.
      + intros [(d' & I & It) | [It | H]].
        * left. exists d'. auto.
        * left. exists d. auto.
        * right. exact H.
      + intros [(d' & [<- | I] & It) | H].
        * right. left. exact It.
        * left. exists d'. auto.
        * right. right. exact H. }
  rewrite G. split.
  - intros [H | H]; [exact H |]. exfalso. apply H. reflexivity.
  - auto.
Qed.

Lemma lookup_map_value {V W : Type} (g : token * V -> W) (d : list (token * V))
    (t : token) :
  lookup (map (fun e => (fst e, g e)) d) t
  = match find (fun e => token_eqb (fst e) t) d with
    | Some e => Some (g e)
    | None => None
    end.
Proof.
  induction d as [| [u v] d IH]; simpl.
  - reflexivity.
  - destruct (token_eqb u t); [reflexivity | exact IH].
Qed.

Lemma has_key_map_value {V W : Type} (g : token * V -> W)
    (d : list (token * V)) (t : token) :
  has_key (map (fun e => (fst e, g e)) d) t <-> has_key d t.
Proof.
  unfold has_key. rewrite lookup_map_value.
  induction d as [| [u v] d IH]; simpl.
  - tauto.
  - destruct (token_eqb u t); [| exact IH]. split; discriminate.
Qed.

Lemma lookup_In {V : Type} (d : list (token * V)) (t : token) (v : V) :
  lookup d t = Some v -> In (t, v) d.
Proof.
  induction d as [| [u w] d IH]; simpl; intros H.
  - discriminate.
  - destruct (token_eqb u t) eqn:E.
    + apply token_eqb_true in E. injection H as <-. subst. left. reflexivity.
    + right. apply IH. exact H.
Qed.

(** *** Construction *)

(** The argument of the logarithm exceeds 1, so the logarithm is defined
    and positive. *)
Lemma idf_entry_Ok (total_docs : Z) (item : token * Z) :
  (1 <= snd item <= total_docs)%Z ->
  idf_entry total_docs item = Ok (fst item, raw_idf total_docs item)
  /\ 1 < (IZR (total_docs - snd item) + 0.5) / (IZR (snd item) + 0.5) + 1.0
  /\ 0 < raw_idf total_docs item.
Proof.
  destruct item as [term freq]. simpl. intros [H1 H2].
  assert (Hf : 1 <= IZR freq) by (apply IZR_le; exact H1).
  assert (Hd : 0 <= IZR (total_docs - freq)) by (apply IZR_le; lia).
  assert (Hr : 0 < (IZR (total_docs - freq) + 0.5) / (IZR freq + 0.5))
    by (apply Rdiv_lt_0_compat; lra).
  assert (Hpos : 0 < raw_idf total_docs (term, freq)).
  { unfold raw_idf. simpl. rewrite <- ln_1. apply ln_increasing; lra. }
  split; [| split; [lra | exact Hpos]].
  unfold idf_entry. rewrite truediv_Ok by lra. simpl.
  unfold math_log.
  destruct (Rlt_dec 0 ((IZR (total_docs - freq) + 0.5) / (IZR freq + 0.5) + 1.0))
    as [_ | N]; [reflexivity | lra].
Qed.

Lemma build_idf_Ok (tokenized : list (list token)) (eps : R) :
  _build_idf tokenized eps
  = Ok (idf_table tokenized eps, max_value (raw_table tokenized)).
Proof.
  unfold _build_idf.
  rewrite (mapM_total _ (fun item =>
             (fst item, raw_idf (Z.of_nat (length tokenized)) item))).
  - reflexivity.
  - intros item I. apply idf_entry_Ok.
    pose proof (document_frequency_bounded tokenized) as Hb.
    rewrite Forall_forall in Hb. apply Hb. exact I.
Qed.

Lemma raw_table_positive (tokenized : list (list token)) :
  Forall (fun e => 0 < snd e) (raw_table tokenized).
Proof.
  unfold raw_table. apply Forall_forall. intros e I.
  apply in_map_iff in I. destruct I as (item & <- & I). simpl.
  apply idf_entry_Ok.
  pose proof (document_frequency_bounded tokenized) as Hb.
  rewrite Forall_forall in Hb. apply Hb. exact I.
Qed.

(** Flooring at [epsilon * max(idf)] never lowers a weight, so every stored
    weight is positive, whatever [epsilon] is. *)
Lemma idf_table_positive (tokenized : list (list token)) (eps : R) :
  Forall (fun e => 0 < snd e) (idf_table tokenized eps).
Proof.
  unfold idf_table. apply Forall_forall. intros e I.
  apply in_map_iff in I. destruct I as (item & <- & I). cbn [fst snd].
  pose proof (raw_table_positive tokenized) as Hp.
  rewrite Forall_forall in Hp. specialize (Hp item I). cbv beta in Hp.
  destruct (py_max_ge (snd item) [max_value (raw_table tokenized) * eps])
    as [Hge _].
  lra.
Qed.

Lemma has_key_idf_table (tokenized : list (list token)) (eps : R) (t : token) :
  has_key (idf_table tokenized eps) t
  <-> exists d, In d tokenized /\ In t d.
Proof.
  unfold idf_table, raw_table.
  rewrite !has_key_map_value. apply has_key_document_frequency.
Qed.

Lemma total_length_ge (ds : list (list token)) (d : list token) :
  In d ds -> (Z.of_nat (length d) <= total_length ds)%Z.
Proof.
  unfold total_length.
  assert (G : forall l acc,
            (acc <= fold_left (fun a tokens => (a + Z.of_nat (length tokens))%Z)
                              l acc)%Z
            /\ (In d l ->
                (acc + Z.of_nat (length d)
                 <= fold_left (fun a tokens => (a + Z.of_nat (length tokens))%Z)
                              l acc)%Z)).
  { induction l as [| x l IH]; simpl; intros acc.
    - split; [lia | intros []].
    - destruct (IH (acc + Z.of_nat (length x))%Z) as [H1 H2].
      split; [lia |]. intros [-> | I]; [lia |]. specialize (H2 I). lia. }
  intros I. destruct (G ds 0%Z) as [_ H]. specialize (H I). lia.
Qed.

Lemma init_empty (k1 b eps : R) :
  __init__ [] k1 b eps = Raise ZeroDivisionError.
Proof.
  unfold __init__. simpl map. rewrite build_idf_Ok. simpl.
  rewrite truediv_zero. reflexivity.
Qed.

Lemma init_built (docs : list pystr) (k1 b eps : R) :
  docs <> [] -> __init__ docs k1 b eps = Ok (built docs k1 b eps).
Proof.
  intros Hne. unfold __init__. rewrite build_idf_Ok. simpl.
  rewrite truediv_Ok; [reflexivity |].
  rewrite length_map. destruct docs as [| d docs]; [contradiction |].
  apply not_0_IZR. simpl length. lia.
Qed.

(** C4. Constructing a retriever over an empty document list fails at once
    with an error raised to the caller (a [ZeroDivisionError], the code's
    form of the invalid-input failure); constructing it over at least one
    document succeeds. *)
Theorem init_fails_on_empty_only :
  (forall k1 b eps, __init__ [] k1 b eps = Raise ZeroDivisionError)
  /\ (forall docs k1 b eps, docs <> [] ->
        exists r, __init__ docs k1 b eps = Ok r).
Proof.
  split.
  - apply init_empty.
  - intros docs k1 b eps Hne. exists (built docs k1 b eps).
    apply init_built. exact Hne.
Qed.

(** *** Scoring *)

Lemma term_count_pos (doc : list token) (t : token) :
  (0 < term_count doc t)%Z <-> In t doc.
Proof.
  unfold term_count. rewrite (count_occ_In token_eq_dec). lia.
Qed.

Lemma score_step_skip (self : BM25Retriever) (doc : list token) (len : Z)
    (s : R) (t : token) :
  matching self doc t = None -> score_step self doc len s t = Ok s.
Proof.
  unfold matching, score_step. intros ->. reflexivity.
Qed.

Lemma score_loop_skip (self : BM25Retriever) (doc : list token) (len : Z)
    (query : list token) (s : R) :
  (forall t, In t query -> matching self doc t = None) ->
  score_loop self doc len query s = Ok s.
Proof.
  revert s. induction query as [| t query IH]; simpl; intros s H.
  - reflexivity.
  - rewrite score_step_skip by (apply H; left; reflexivity). simpl.
    apply IH. intros t' I. apply H. right. exact I.
Qed.

Lemma score_step_match (self : BM25Retriever) (doc : list token) (len : Z)
    (s v : R) (t : token) :
  matching self doc t = Some v ->
  avg_doc_length self <> 0 ->
  IZR (term_count doc t)
  + k1 self * (1 - b self + b self * (IZR len / avg_doc_length self)) <> 0 ->
  score_step self doc len s t
  = Ok (s + bm25_term self v (term_count doc t) len).
Proof.
  unfold matching, score_step. intros -> Havg Hden.
  rewrite (truediv_Ok _ _ Havg). simpl.
  rewrite (truediv_Ok _ _ Hden). reflexivity.
Qed.

Lemma lookup_positive (d : list (token * R)) (t : token) (v : R) :
  Forall (fun e => 0 < snd e) d -> lookup d t = Some v -> 0 < v.
Proof.
  intros Hd H. apply lookup_In in H. rewrite Forall_forall in Hd.
  apply (Hd (t, v) H).
Qed.

Lemma div_le_cross (a b c d : R) :
  0 < b -> 0 < d -> a * d <= c * b -> a / b <= c / d.
Proof.
  intros Hb Hd H.
  apply (Rmult_le_reg_r (b * d)); [nra |].
  replace (a / b * (b * d)) with (a * d) by (field; lra).
  replace (c / d * (b * d)) with (c * b) by (field; lra).
  exact H.
Qed.

Section Scores.
Variable self : BM25Retriever.
Hypothesis Hk1 : 0 <= k1 self.
Hypothesis Hb : 0 <= b self <= 1.

(** With [k1 >= 0] and [0 <= b <= 1] the denominator is at least [tf]. *)
Lemma denominator_ge (tf len : Z) :
  (0 <= len)%Z -> 0 < avg_doc_length self ->
  IZR tf
  <= IZR tf
     + k1 self * (1 - b self + b self * (IZR len / avg_doc_length self)).
Proof.
  intros Hlen Havg.
  assert (Hl : 0 <= IZR len) by (apply IZR_le; exact Hlen).
  assert (Hr : 0 <= IZR len / avg_doc_length self).
  { apply Rmult_le_pos; [exact Hl |].
    apply Rlt_le, Rinv_0_lt_compat. exact Havg. }
  assert (Hn : 0 <= 1 - b self + b self * (IZR len / avg_doc_length self)).
  { assert (0 <= b self * (IZR len / avg_doc_length self))
      by (apply Rmult_le_pos; lra).
    lra. }
  assert (0 <= k1 self * (1 - b self
                          + b self * (IZR len / avg_doc_length self)))
    by (apply Rmult_le_pos; assumption).
  lra.
Qed.

Lemma bm25_term_pos (v : R) (tf len : Z) :
  0 < v -> (1 <= tf)%Z -> (0 <= len)%Z -> 0 < avg_doc_length self ->
  0 < bm25_term self v tf len.
Proof.
  intros Hv Htf Hlen Havg.
  assert (Ht : 1 <= IZR tf) by (apply IZR_le; exact Htf).
  pose proof (denominator_ge tf len Hlen Havg) as Hd.
  unfold bm25_term. apply Rdiv_lt_0_compat; [| lra].
  apply Rmult_lt_0_compat; [exact Hv |].
  apply Rmult_lt_0_compat; lra.
Qed.


Hypothesis Hidf : Forall (fun e => 0 < snd e) (idf self).

Section Document.
Variables (doc : list token) (len : Z).
Hypothesis Hlen : (0 <= len)%Z.
Hypothesis Havg : doc <> [] -> 0 < avg_doc_length self.

Lemma score_step_matched (s v : R) (t : token) :
  matching self doc t = Some v ->
  score_step self doc len s t
  = Ok (s + bm25_term self v (term_count doc t) len)
  /\ 0 < bm25_term self v (term_count doc t) len.
Proof.
  intros Hm.
  assert (Htf : (0 < term_count doc t)%Z).
  { unfold matching in Hm.
    destruct (0 <? term_count doc t)%Z eqn:E; [| discriminate].
    apply Z.ltb_lt. exact E. }
  assert (Hv : 0 < v).
  { unfold matching in Hm.
    destruct (0 <? term_count doc t)%Z; [| discriminate].
    apply (lookup_positive _ _ _ Hidf Hm). }
  assert (Ha : 0 < avg_doc_length self).
  { apply Havg. apply term_count_pos in Htf. intros ->. destruct Htf. }
  pose proof (denominator_ge (term_count doc t) len Hlen Ha) as Hd.
  assert (Ht : 1 <= IZR (term_count doc t)) by (apply IZR_le; lia).
  split.
  - apply score_step_match; [exact Hm | lra | lra].
  - apply bm25_term_pos; [exact Hv | lia | exact Hlen | exact Ha].
Qed.

(** A round of the loop never lowers the score. *)
Lemma score_step_grows (s : R) (t : token) :
  exists s', score_step self doc len s t = Ok s' /\ s <= s'
             /\ (matching self doc t <> None -> s < s').
Proof.
  destruct (matching self doc t) as [v |] eqn:Hm.
  - destruct (score_step_matched s v t Hm) as [E Hp].
    exists (s + bm25_term self v (term_count doc t) len).
    split; [exact E |]. split; [lra |]. intros _. lra.
  - exists s. split; [apply score_step_skip; exact Hm |].
    split; [lra |]. intros N. contradiction.
Qed.

Lemma score_loop_grows (query : list token) (s : R) :
  exists s', score_loop self doc len query s = Ok s' /\ s <= s'
             /\ ((exists t, In t query /\ matching self doc t <> None) ->
                 s < s').
Proof.
  revert s. induction query as [| t query IH]; simpl; intros s.
  - exists s. split; [reflexivity |]. split; [lra |].
    intros (t & [] & _).
  - destruct (score_step_grows s t) as (s1 & E1 & Hle1 & Hlt1).
    destruct (IH s1) as (s2 & E2 & Hle2 & Hlt2).
    exists s2. rewrite E1. simpl. split; [exact E2 |]. split; [lra |].
    intros (t' & [<- | I] & Hm).
    + specialize (Hlt1 Hm). lra.
    + assert (s1 < s2) by (apply Hlt2; exists t'; auto). lra.
Qed.
End Document.
End Scores.

(** *** Retrieval *)

Lemma mapM_Forall2 {A B : Type} (f : A -> result B) (l : list A)
    (out : list B) :
  Forall2 (fun x y => f x = Ok y) l out -> mapM f l = Ok out.
Proof.
  induction 1 as [| x y l out Hxy _ IH]; simpl.
  - reflexivity.
  - rewrite Hxy. simpl. rewrite IH. reflexivity.
Qed.

Lemma Forall2_choose {A B : Type} (Q : A -> B -> Prop) (P : B -> Prop)
    (l : list A) :
  (forall x, In x l -> exists y, Q x y /\ P y) ->
  exists ys, Forall2 Q l ys /\ Forall P ys.
Proof.
  induction l as [| x l IH]; intros H.
  - exists []. split; constructor.
  - destruct (H x (or_introl eq_refl)) as (y & Hq & Hp).
    destruct IH as (ys & Hqs & Hps).
    { intros x' I. apply H. right. exact I. }
    exists (y :: ys). split; constructor; assumption.
Qed.

(** [retrieve] once the score of every document is known: the scores are
    paired with the document indices, sorted and cut. *)
Lemma retrieve_scores (self : BM25Retriever) (query : pystr) (top_k : Z)
    (scores : list R) :
  Forall2 (fun doc s =>
             _score_document self (_tokenize query) doc
                             (Z.of_nat (length doc)) = Ok s)
          (tokenized_docs self) scores ->
  retrieve self query top_k
  = Ok (slice_to top_k (sort_desc snd (enumerate scores))).
Proof.
  intros H. unfold retrieve.
  rewrite (mapM_Forall2 _ _ (enumerate scores)); [reflexivity |].
  unfold enumerate. generalize 0%Z.
  induction H as [| doc s docs scores Hs _ IH]; intros i; simpl.
  - constructor.
  - constructor; [| apply IH]. rewrite Hs. reflexivity.
Qed.



Lemma enumerate_from_const {A : Type} (c : R) (l : list A) (i : nat) :
  enumerate_from (Z.of_nat i) (map (fun _ => c) l)
  = map (fun j => (Z.of_nat j, c)) (seq i (length l)).
Proof.
  revert i. induction l as [| x l IH]; simpl; intros i.
  - reflexivity.
  - f_equal. replace (Z.of_nat i + 1)%Z with (Z.of_nat (S i)) by lia.
    apply IH.
Qed.

Lemma enumerate_zero {A : Type} (l : list A) :
  enumerate (map (fun _ => 0.0) l) = zero_scores (length l).
Proof. apply (enumerate_from_const 0.0 l 0). Qed.

Lemma zero_scores_descending (n : nat) : descending snd (zero_scores n).
Proof.
  unfold zero_scores, descending. generalize 0%nat.
  induction n as [| n IH]; simpl; intros i.
  - constructor.
  - constructor; [apply IH |]. apply Forall_forall. intros e I.
    apply in_map_iff in I. destruct I as (j & <- & _). simpl. lra.
Qed.

Lemma retrieve_zero (self : BM25Retriever) (query : pystr) (top_k : Z) :
  (forall t, In t (_tokenize query) -> lookup (idf self) t = None) ->
  retrieve self query top_k
  = Ok (slice_to top_k (zero_scores (length (tokenized_docs self)))).
Proof.
  intros H.
  rewrite (retrieve_scores self query top_k
             (map (fun _ => 0.0) (tokenized_docs self))).
  - rewrite enumerate_zero, sort_desc_id by apply zero_scores_descending.
    reflexivity.
  - induction (tokenized_docs self) as [| doc docs IH]; simpl; constructor.
    + apply score_loop_skip. intros t I. unfold matching.
      rewrite (H t I). destruct (0 <? term_count doc t)%Z; reflexivity.
    + exact IH.
Qed.

(** C6. For a query none of whose tokens is in the ranker's vocabulary, and
    so for the empty query, [retrieve] returns the document indices
    0, 1, 2, ... in ascending order, each with score 0.0, cut to the first
    [top_k] entries. *)
Theorem retrieve_without_match (self : BM25Retriever) (top_k : Z) :
  (0 <= top_k)%Z ->
  (forall query,
     (forall t, In t (_tokenize query) -> lookup (idf self) t = None) ->
     retrieve self query top_k
     = Ok (firstn (Z.to_nat top_k)
                  (zero_scores (length (tokenized_docs self)))))
  /\ retrieve self [] top_k
     = Ok (firstn (Z.to_nat top_k)
                  (zero_scores (length (tokenized_docs self)))).
Proof.
  intros Hk.
  assert (E : forall l : list (Z * R),
            slice_to top_k l = firstn (Z.to_nat top_k) l).
  { intros l. unfold slice_to.
    destruct (0 <=? top_k)%Z eqn:E; [reflexivity |].
    apply Z.leb_gt in E. lia. }
  split.
  - intros query H. rewrite <- E. apply retrieve_zero. exact H.
  - rewrite <- E. apply retrieve_zero. intros t [].
Qed.


(** *** Sign of the scores *)

Lemma built_avg_positive (docs : list pystr) (k1 b eps : R) (d : list token) :
  In d (tokenized_docs (built docs k1 b eps)) -> d <> [] ->
  0 < avg_doc_length (built docs k1 b eps).
Proof.
  simpl. intros I Hne.
  pose proof (total_length_ge _ _ I) as Hlen.
  assert (Hd : (1 <= Z.of_nat (length d))%Z)
    by (destruct d; [contradiction | simpl length; lia]).
  assert (Hn : (1 <= Z.of_nat (length (map _tokenize docs)))%Z).
  { destruct (map _tokenize docs); [destruct I | simpl length; lia]. }
  apply Rdiv_lt_0_compat; apply IZR_lt; lia.
Qed.





(** *** The end-to-end scenario *)

Lemma scenario_tokenized :
  map _tokenize scenario_documents = [doc0_tokens; doc1_tokens; doc2_tokens]
  /\ _tokenize scenario_query = query_tokens.
Proof. split; vm_compute; reflexivity. Qed.

(** The retriever ignores a document none of whose tokens is asked for. *)
Lemma score_document_disjoint (self : BM25Retriever)
    (query doc : list token) (len : Z) :
  forallb (fun t => negb (0 <? term_count doc t)%Z) query = true ->
  _score_document self query doc len = Ok 0.0.
Proof.
  intros H. apply score_loop_skip. intros t I.
  rewrite forallb_forall in H. specialize (H t I).
  unfold matching. destruct (0 <? term_count doc t)%Z; [discriminate |].
  reflexivity.
Qed.

(** C2. In the end-to-end scenario (the three documents, the default
    parameters [k1 = 1.2], [b = 0.75], [epsilon = 0.25]) the retriever is
    built, and [retrieve] with [top_k = 1] returns document index 0 alone;
    its score is positive, while the two other documents score 0.0. *)
Theorem retrieve_end_to_end :
  exists r s,
    __init__ scenario_documents default_k1 default_b default_epsilon = Ok r
    /\ retrieve r scenario_query 1 = Ok [(0%Z, s)]
    /\ retrieve r scenario_query 3 = Ok [(0%Z, s); (1%Z, 0.0); (2%Z, 0.0)]
    /\ 0 < s.
Proof.
  destruct scenario_tokenized as [Hdocs Hquery].
  set (r := built scenario_documents default_k1 default_b default_epsilon).
  assert (Hk1 : 0 <= k1 r).
  { change (k1 r) with default_k1. unfold default_k1. lra. }
  assert (Hb : 0 <= b r <= 1).
  { change (b r) with default_b. unfold default_b. lra. }
  assert (Hidf : Forall (fun e => 0 < snd e) (idf r))
    by apply idf_table_positive.
  assert (Htok : tokenized_docs r = [doc0_tokens; doc1_tokens; doc2_tokens])
    by exact Hdocs.
  assert (I0 : In doc0_tokens (tokenized_docs r))
    by (rewrite Htok; left; reflexivity).
  destruct (score_loop_grows r Hk1 Hb Hidf doc0_tokens
              (Z.of_nat (length doc0_tokens)) (Nat2Z.is_nonneg _)
              (built_avg_positive _ _ _ _ doc0_tokens I0) query_tokens 0.0)
    as (s & Hs & _ & Hlt).
  assert (Hpos : 0 < s).
  { assert (0.0 < s); [| lra]. apply Hlt.
    exists [0x6df1%N]. split.
    - left. reflexivity.
    - unfold matching.
      assert (Htf : (0 <? term_count doc0_tokens [0x6df1%N])%Z = true)
        by (vm_compute; reflexivity).
      rewrite Htf. apply has_key_idf_table. exists doc0_tokens.
      split; [exact I0 | left; reflexivity]. }
  assert (H1 : _score_document r query_tokens doc1_tokens
                 (Z.of_nat (length doc1_tokens)) = Ok 0.0).
  { apply score_document_disjoint. vm_compute. reflexivity. }
  assert (H2 : _score_document r query_tokens doc2_tokens
                 (Z.of_nat (length doc2_tokens)) = Ok 0.0).
  { apply score_document_disjoint. vm_compute. reflexivity. }
  assert (Hall : forall top_k,
            retrieve r scenario_query top_k
            = Ok (slice_to top_k [(0%Z, s); (1%Z, 0.0); (2%Z, 0.0)])).
  { intros top_k.
    rewrite (retrieve_scores r scenario_query top_k [s; 0.0; 0.0]).
    - rewrite sort_desc_id; [reflexivity |].
      unfold enumerate. simpl enumerate_from.
      repeat constructor; cbn [snd]; lra.
    - rewrite Htok, Hquery. repeat constructor; assumption. }
  exists r, s.
  split; [apply init_built; discriminate |].
  split; [apply Hall |]. split; [apply Hall | exact Hpos].
Qed.

(** *** Instances on a small retriever *)

Lemma retrieve_without_match_witness :
  (forall query,
     (forall t, In t (_tokenize query) -> lookup (idf small_retriever) t = None) ->
     retrieve small_retriever query 1
     = Ok (firstn (Z.to_nat 1)
                  (zero_scores (length (tokenized_docs small_retriever)))))
  /\ retrieve small_retriever [] 1
     = Ok (firstn (Z.to_nat 1)
                  (zero_scores (length (tokenized_docs small_retriever)))).
Proof.
  apply (retrieve_without_match small_retriever 1). lia.
Defined.


End BM25Spec.

Import FusionSpec.
Import BM25Spec.

(* ================================================================== *)
(** ** More about the tokenizer *)
(* ================================================================== *)

Module TokenizerSpec.

Ltac cases_N :=
  repeat match goal with
         | |- context [(?a <=? ?b)%N] => destruct (N.leb_spec a b)
         | |- context [(?a =? ?b)%N] => destruct (N.eqb_spec a b)
         | H : context [(?a <=? ?b)%N] |- _ => destruct (N.leb_spec a b)
         | H : context [(?a =? ?b)%N] |- _ => destruct (N.eqb_spec a b)
         end.

Lemma lower_cp_not_upper (c : N) :
  Forall (fun x => is_upper x = false) (lower_cp c).
Proof.
  unfold lower_cp, is_upper.
  cases_N; simpl; repeat constructor; unfold is_upper;
    cases_N; simpl; try reflexivity; try lia.
Qed.

Lemma lower_not_upper (text : pystr) :
  Forall (fun x => is_upper x = false) (lower text).
Proof.
  unfold lower. induction text as [| c text IH]; simpl.
  - constructor.
  - apply Forall_app. split; [apply lower_cp_not_upper | exact IH].
Qed.

Lemma lower_cp_fixed (c : N) : flat_map lower_cp (lower_cp c) = lower_cp c.
Proof.
  unfold lower_cp at 2. unfold is_upper.
  cases_N; simpl; unfold lower_cp, is_upper; cases_N; simpl;
    try reflexivity; try lia.
Qed.

Lemma lower_cp_cjk (c : N) : filter is_cjk (lower_cp c) = filter is_cjk [c].
Proof.
  unfold lower_cp, is_upper.
  cases_N; simpl; unfold is_cjk; cases_N; simpl; try reflexivity; try lia.
Qed.

(** Every run [letter_runs] returns is non-empty and made of letters of the
    text (or of the run it started with). *)
Lemma letter_runs_shape (P : N -> Prop) (text run : pystr) :
  Forall P run -> Forall (fun c => is_letter c = true -> P c) text ->
  Forall (fun t => t <> [] /\ Forall P t) (letter_runs run text).
Proof.
  revert run. induction text as [| c text IH]; simpl; intros run Hrun Htext.
  - destruct run as [| x run]; constructor; [| constructor].
    split; [discriminate | exact Hrun].
  - inversion Htext as [| ? ? Hc Htext']; subst.
    destruct (is_letter c) eqn:E.
    + apply IH; [| exact Htext'].
      apply Forall_app. split; [exact Hrun |].
      constructor; [apply Hc; reflexivity | constructor].
    + destruct run as [| x run].
      * apply IH; [constructor | exact Htext'].
      * constructor; [split; [discriminate | exact Hrun] |].
        apply IH; [constructor | exact Htext'].
Qed.

(** X1. The tokens of a text are, first, one token per character of the
    range U+4E00 to U+9FFF, each that single character, and then the words:
    non-empty runs of the lowercase letters a to z.  No token is empty, and
    no token holds a digit, a space, an uppercase letter or punctuation. *)
Theorem tokenize_shape (text : pystr) :
  exists chars words,
    _tokenize text = chars ++ words
    /\ Forall is_cjk_token chars
    /\ Forall is_word_token words
    /\ map (fun t => hd 0%N t) chars = filter is_cjk text.
Proof.
  exists (findall_cjk text), (findall_words (lower text)).
  split; [reflexivity |]. split; [| split].
  - unfold findall_cjk. apply Forall_forall. intros t I.
    apply in_map_iff in I. destruct I as (c & <- & I).
    apply filter_In in I. exists c. split; [reflexivity | apply I].
  - unfold findall_words. apply letter_runs_shape; [constructor |].
    pose proof (lower_not_upper text) as H.
    revert H. apply Forall_impl. intros c Hup Hlet.
    unfold is_letter in Hlet. rewrite Hup in Hlet. exact Hlet.
  - unfold findall_cjk. rewrite map_map. simpl. apply map_id.
Qed.

Lemma lower_idempotent (text : pystr) : lower (lower text) = lower text.
Proof.
  unfold lower. induction text as [| c text IH]; simpl.
  - reflexivity.
  - rewrite flat_map_app, IH, lower_cp_fixed. reflexivity.
Qed.

Lemma findall_cjk_lower (text : pystr) :
  findall_cjk (lower text) = findall_cjk text.
Proof.
  unfold findall_cjk, lower. f_equal.
  induction text as [| c text IH]; simpl flat_map.
  - reflexivity.
  - rewrite filter_app, IH, lower_cp_cjk. simpl.
    destruct (is_cjk c); reflexivity.
Qed.

(** X2. Lowercasing a text before tokenizing it changes nothing: the
    tokenizer is blind to the case of letters. *)
Theorem tokenize_lower (text : pystr) :
  _tokenize (lower text) = _tokenize text.
Proof.
  unfold _tokenize. rewrite lower_idempotent, findall_cjk_lower. reflexivity.
Qed.

End TokenizerSpec.

(* ================================================================== *)
(** ** More about the BM25 ranker *)
(* ================================================================== *)

Module RankerSpec.

(** *** Document frequencies, exactly *)

Lemma lookup_counter_incr (c : list (token * Z)) (t t' : token) :
  lookup (counter_incr c t) t'
  = if token_eqb t t' then Some (count_of c t + 1)%Z else lookup c t'.
Proof.
  unfold count_of. induction c as [| [u n] c IH]; simpl.
  - destruct (token_eqb t t'); reflexivity.
  - destruct (token_eqb u t) eqn:Eu; simpl.
    + apply token_eqb_true in Eu. subst u.
      destruct (token_eqb t t'); reflexivity.
    + rewrite IH. destruct (token_eqb t t') eqn:Et.
      * apply token_eqb_true in Et. subst t'. rewrite Eu. reflexivity.
      * reflexivity.
Qed.

Lemma lookup_counter_update (ts : list token) :
  NoDup ts ->
  forall (c : list (token * Z)) (t' : token),
    lookup (counter_update c ts) t'
    = if in_dec token_eq_dec t' ts then Some (count_of c t' + 1)%Z
      else lookup c t'.
Proof.
  unfold counter_update.
  induction 1 as [| t ts Ht Hnd IH]; simpl; intros c t'.
  - reflexivity.
  - rewrite IH. destruct (token_eq_dec t t') as [E | N].
    + subst t'. destruct (in_dec token_eq_dec t ts) as [I | _];
        [contradiction |].
      rewrite lookup_counter_incr, token_eqb_refl. reflexivity.
    + assert (Eb : token_eqb t t' = false).
      { destruct (token_eqb t t') eqn:E; [| reflexivity].
        apply token_eqb_true in E. contradiction. }
      unfold count_of. rewrite lookup_counter_incr, Eb.
      destruct (in_dec token_eq_dec t' ts); reflexivity.
Qed.

Lemma count_of_counter_update (ts : list token) (c : list (token * Z))
    (t' : token) :
  NoDup ts ->
  count_of (counter_update c ts) t'
  = if in_dec token_eq_dec t' ts then (count_of c t' + 1)%Z else count_of c t'.
Proof.
  intros Hnd. unfold count_of at 1. rewrite (lookup_counter_update ts Hnd).
  destruct (in_dec token_eq_dec t' ts); reflexivity.
Qed.

Lemma lookup_document_frequency_from (docs : list (list token))
    (c : list (token * Z)) (t : token) :
  lookup (fold_left
            (fun df tokens => counter_update df (nodup token_eq_dec tokens))
            docs c) t
  = match docs_containing docs t with
    | O => lookup c t
    | S n => Some (count_of c t + Z.of_nat (S n))%Z
    end.
Proof.
  revert c. unfold docs_containing.
  induction docs as [| d docs IH]; simpl fold_left; intros c.
  - reflexivity.
  - rewrite IH. simpl filter.
    rewrite (lookup_counter_update _ (NoDup_nodup _ _)).
    rewrite (count_of_counter_update _ _ _ (NoDup_nodup _ _)).
    destruct (in_dec token_eq_dec t d) as [I | N].
    + destruct (in_dec token_eq_dec t (nodup token_eq_dec d)) as [_ | N'];
        [| exfalso; apply N'; apply nodup_In; exact I].
      simpl length.
      destruct (length (filter _ docs)); f_equal; lia.
    + destruct (in_dec token_eq_dec t (nodup token_eq_dec d)) as [I' | _];
        [exfalso; apply N; apply (nodup_In token_eq_dec); exact I' |].
      reflexivity.
Qed.

Lemma lookup_document_frequency (docs : list (list token)) (t : token) :
  lookup (document_frequency docs) t
  = match docs_containing docs t with
    | O => None
    | S n => Some (Z.of_nat (S n))
    end.
Proof.
  unfold document_frequency. rewrite lookup_document_frequency_from.
  destruct (docs_containing docs t); reflexivity.
Qed.

(** X3. The document frequency of a token is the number of documents that
    hold it, however often it occurs in each; a token in no document has no
    entry. *)
Theorem document_frequency_counts (docs : list (list token)) (t : token) :
  lookup (document_frequency docs) t
  = match docs_containing docs t with
    | O => None
    | S n => Some (Z.of_nat (S n))
    end.
Proof. apply lookup_document_frequency. Qed.

(** *** The idf table, in closed form *)

Lemma lookup_map_entry {V W : Type} (g : token * V -> W)
    (d : list (token * V)) (t : token) :
  lookup (map (fun e => (fst e, g e)) d) t
  = match lookup d t with
    | Some v => Some (g (t, v))
    | None => None
    end.
Proof.
  induction d as [| [u v] d IH]; simpl.
  - reflexivity.
  - destruct (token_eqb u t) eqn:E; [| exact IH].
    apply token_eqb_true in E. subst u. reflexivity.
Qed.

Lemma py_max_pair (x y : R) : py_max x [y] = Rmax x y.
Proof.
  unfold py_max, Rmax. simpl.
  destruct (Rlt_dec x y), (Rle_dec x y); try reflexivity; lra.
Qed.

Lemma lookup_idf_table (tokenized : list (list token)) (eps : R) (t : token) :
  lookup (idf_table tokenized eps) t
  = match docs_containing tokenized t with
    | O => None
    | S n =>
        Some (Rmax (raw_idf (Z.of_nat (length tokenized)) (t, Z.of_nat (S n)))
                   (max_value (raw_table tokenized) * eps))
    end.
Proof.
  unfold idf_table. rewrite lookup_map_entry.
  unfold raw_table at 1. rewrite lookup_map_entry.
  rewrite lookup_document_frequency.
  destruct (docs_containing tokenized t); [reflexivity |].
  cbn [snd]. rewrite py_max_pair. reflexivity.
Qed.

(** X4. A retriever built over [N] documents stores, for a token that
    [n >= 1] documents hold, the weight
    [max(ln((N - n + 0.5) / (n + 0.5) + 1), epsilon * max_idf)], where
    [max_idf] is the attribute [_max_idf]; a token in no document has no
    weight. *)
Theorem idf_closed_form (docs : list pystr) (k1 b eps : R) :
  docs <> [] ->
  exists r,
    __init__ docs k1 b eps = Ok r
    /\ forall t,
         lookup (idf r) t
         = match docs_containing (tokenized_docs r) t with
           | O => None
           | S n =>
               Some (Rmax (ln ((IZR (Z.of_nat (length docs) - Z.of_nat (S n))
                                + 0.5)
                               / (IZR (Z.of_nat (S n)) + 0.5) + 1.0))
                          (_max_idf r * epsilon r))
           end.
Proof.
  intros Hne. exists (built docs k1 b eps).
  split; [apply init_built; exact Hne |].
  intros t. cbn [idf tokenized_docs _max_idf epsilon built].
  rewrite lookup_idf_table, length_map. reflexivity.
Qed.

Lemma idf_closed_form_witness :
  exists r,
    __init__ small_documents 1.2 0.75 0.25 = Ok r
    /\ forall t,
         lookup (idf r) t
         = match docs_containing (tokenized_docs r) t with
           | O => None
           | S n =>
               Some (Rmax (ln ((IZR (Z.of_nat (length small_documents)
                                     - Z.of_nat (S n)) + 0.5)
                               / (IZR (Z.of_nat (S n)) + 0.5) + 1.0))
                          (_max_idf r * epsilon r))
           end.
Proof.
  apply (idf_closed_form small_documents 1.2 0.75 0.25). discriminate.
Defined.

(** The raw idf falls as the document frequency rises. *)
Lemma raw_idf_antitone (total : Z) (t1 t2 : token) (n1 n2 : Z) :
  (1 <= n1 <= n2)%Z -> (n2 <= total)%Z ->
  raw_idf total (t2, n2) <= raw_idf total (t1, n1).
Proof.
  intros [H1 H12] H2. unfold raw_idf. cbn [snd].
  assert (Hn1 : 1 <= IZR n1) by (apply IZR_le; exact H1).
  assert (Hn12 : IZR n1 <= IZR n2) by (apply IZR_le; exact H12).
  assert (Hd1 : IZR (total - n1) = IZR total - IZR n1) by apply minus_IZR.
  assert (Hd2 : IZR (total - n2) = IZR total - IZR n2) by apply minus_IZR.
  assert (Ht : IZR n2 <= IZR total) by (apply IZR_le; exact H2).
  rewrite Hd1, Hd2.
  assert (Hq : (IZR total - IZR n2 + 0.5) / (IZR n2 + 0.5)
               <= (IZR total - IZR n1 + 0.5) / (IZR n1 + 0.5)).
  { apply div_le_cross; [lra | lra | nra]. }
  assert (Hp : 0 < (IZR total - IZR n2 + 0.5) / (IZR n2 + 0.5))
    by (apply Rdiv_lt_0_compat; lra).
  destruct (Req_dec_T ((IZR total - IZR n2 + 0.5) / (IZR n2 + 0.5))
                      ((IZR total - IZR n1 + 0.5) / (IZR n1 + 0.5)))
    as [E | N].
  - rewrite E. lra.
  - apply Rlt_le, ln_increasing; lra.
Qed.

Lemma docs_containing_le (docs : list (list token)) (t : token) :
  (docs_containing docs t <= length docs)%nat.
Proof. unfold docs_containing. apply filter_length_le. Qed.

Lemma init_inv (docs : list pystr) (k1 b eps : R) (r : BM25Retriever) :
  __init__ docs k1 b eps = Ok r -> docs <> [] /\ r = built docs k1 b eps.
Proof.
  intros H. destruct docs as [| d docs].
  - rewrite init_empty in H. discriminate.
  - rewrite init_built in H by discriminate. injection H as <-.
    split; [discriminate | reflexivity].
Qed.

(** X5. Of two tokens of the collection, the one that fewer documents hold
    never has the smaller stored weight. *)
Theorem idf_rarer_weighs_more (docs : list pystr) (k1 b eps : R)
    (r : BM25Retriever) (t1 t2 : token) (w1 w2 : R) :
  __init__ docs k1 b eps = Ok r ->
  lookup (idf r) t1 = Some w1 ->
  lookup (idf r) t2 = Some w2 ->
  (docs_containing (tokenized_docs r) t1
   <= docs_containing (tokenized_docs r) t2)%nat ->
  w2 <= w1.
Proof.
  intros Hinit. apply init_inv in Hinit. destruct Hinit as [_ ->].
  cbn [idf tokenized_docs built]. rewrite !lookup_idf_table. intros E1 E2 Hle.
  pose proof (docs_containing_le (map _tokenize docs) t2) as Hb.
  destruct (docs_containing (map _tokenize docs) t1) as [| n1];
    [discriminate |].
  destruct (docs_containing (map _tokenize docs) t2) as [| n2];
    [discriminate |].
  injection E1 as <-. injection E2 as <-.
  apply Rle_max_compat_r.
  apply raw_idf_antitone; lia.
Qed.

(** Two documents, "x y" and "y": [x] is in one of them, [y] in both. *)
Lemma idf_rarer_weighs_more_witness :
  exists w1 w2,
    lookup (idf (built [str "x y"; str "y"] 1.2 0.75 0.25)) [120%N] = Some w1
    /\ lookup (idf (built [str "x y"; str "y"] 1.2 0.75 0.25)) [121%N] = Some w2
    /\ w2 <= w1.
Proof.
  set (r := built [str "x y"; str "y"] 1.2 0.75 0.25).
  assert (K1 : has_key (idf r) [120%N]).
  { apply has_key_idf_table. exists [[120%N]; [121%N]].
    split; left; reflexivity. }
  assert (K2 : has_key (idf r) [121%N]).
  { apply has_key_idf_table. exists [[121%N]].
    split; [right |]; left; reflexivity. }
  destruct (lookup (idf r) [120%N]) as [w1 |] eqn:E1; [| contradiction].
  destruct (lookup (idf r) [121%N]) as [w2 |] eqn:E2; [| contradiction].
  exists w1, w2. split; [reflexivity |]. split; [reflexivity |].
  apply (idf_rarer_weighs_more [str "x y"; str "y"] 1.2 0.75 0.25 r
           [120%N] [121%N] w1 w2).
  - apply init_built. discriminate.
  - exact E1.
  - exact E2.
  - vm_compute. lia.
Defined.

Lemma max_value_ge (d : list (token * R)) (t : token) (v : R) :
  In (t, v) d -> v <= max_value d.
Proof.
  unfold max_value. intros I.
  apply (in_map snd) in I. cbn [snd] in I.
  destruct (map snd d) as [| v0 vs]; [destruct I |].
  destruct (py_max_ge v0 vs) as [H0 Hs].
  destruct I as [<- | I]; [exact H0 |].
  rewrite Forall_forall in Hs. apply Hs. exact I.
Qed.

(** X6. Every stored weight is positive and at least [epsilon] times
    [_max_idf]; and when [epsilon <= 1], no stored weight exceeds
    [_max_idf]. *)
Theorem idf_floor_bounds (docs : list pystr) (k1 b eps : R)
    (r : BM25Retriever) (t : token) (w : R) :
  __init__ docs k1 b eps = Ok r ->
  lookup (idf r) t = Some w ->
  0 < w
  /\ _max_idf r * epsilon r <= w
  /\ (epsilon r <= 1 -> w <= _max_idf r).
Proof.
  intros Hinit. apply init_inv in Hinit. destruct Hinit as [_ ->].
  cbn [idf _max_idf epsilon built]. intros Hw.
  assert (Hpos : 0 < w).
  { apply (lookup_positive _ t w (idf_table_positive _ _) Hw). }
  unfold idf_table in Hw. rewrite lookup_map_entry in Hw.
  destruct (lookup (raw_table (map _tokenize docs)) t) as [v |] eqn:Ev;
    [| discriminate].
  cbn [snd] in Hw. rewrite py_max_pair in Hw. injection Hw as <-.
  pose proof (max_value_ge _ _ _ (lookup_In _ _ _ Ev)) as Hmax.
  pose proof (raw_table_positive (map _tokenize docs)) as Hraw.
  rewrite Forall_forall in Hraw.
  specialize (Hraw _ (lookup_In _ _ _ Ev)). cbn [snd] in Hraw.
  split; [exact Hpos |]. split; [apply Rmax_r |].
  intros He. apply Rmax_lub; [exact Hmax | nra].
Qed.

Lemma idf_floor_bounds_witness :
  exists w,
    lookup (idf (built [str "x y"; str "y"] 1.2 0.75 0.25)) [120%N] = Some w
    /\ 0 < w
    /\ _max_idf (built [str "x y"; str "y"] 1.2 0.75 0.25)
       * epsilon (built [str "x y"; str "y"] 1.2 0.75 0.25) <= w
    /\ (epsilon (built [str "x y"; str "y"] 1.2 0.75 0.25) <= 1 ->
        w <= _max_idf (built [str "x y"; str "y"] 1.2 0.75 0.25)).
Proof.
  set (r := built [str "x y"; str "y"] 1.2 0.75 0.25).
  assert (K1 : has_key (idf r) [120%N]).
  { apply has_key_idf_table. exists [[120%N]; [121%N]].
    split; left; reflexivity. }
  destruct (lookup (idf r) [120%N]) as [w |] eqn:E1; [| contradiction].
  exists w. split; [reflexivity |].
  apply (idf_floor_bounds [str "x y"; str "y"] 1.2 0.75 0.25 r [120%N] w).
  - apply init_built. discriminate.
  - exact E1.
Defined.

(** *** The ranking [retrieve] returns *)

Lemma built_retrieve_Ok (docs : list pystr) (k1 b eps : R) (query : pystr)
    (top_k : Z) :
  0 <= k1 -> 0 <= b <= 1 ->
  exists l, retrieve (built docs k1 b eps) query top_k = Ok l.
Proof.
  intros Hk1 Hb. set (r := built docs k1 b eps).
  destruct (Forall2_choose
              (fun doc s =>
                 _score_document r (_tokenize query) doc
                                 (Z.of_nat (length doc)) = Ok s)
              (fun _ => True) (tokenized_docs r)) as (scores & H2 & _).
  { intros doc I.
    destruct (score_loop_grows r Hk1 Hb (idf_table_positive _ _) doc
                (Z.of_nat (length doc)) (Nat2Z.is_nonneg _)
                (built_avg_positive docs k1 b eps doc I)
                (_tokenize query) 0.0) as (s & E & _).
    exists s. split; [exact E | exact Logic.I]. }
  exists (slice_to top_k (sort_desc snd (enumerate scores))).
  apply retrieve_scores. exact H2.
Qed.


Lemma mapM_Ok_inv {A B : Type} (f : A -> result B) (l : list A)
    (out : list B) :
  mapM f l = Ok out -> Forall2 (fun x y => f x = Ok y) l out.
Proof.
  revert out. induction l as [| x l IH]; simpl; intros out H.
  - injection H as <-. constructor.
  - apply bind_Ok in H. destruct H as (y & Hy & H).
    apply bind_Ok in H. destruct H as (ys & Hys & H).
    injection H as <-. constructor; [exact Hy | apply IH; exact Hys].
Qed.

(** A successful [retrieve] has scored every document, and returns the
    sorted, cut list of the scores. *)
Lemma retrieve_inv (self : BM25Retriever) (query : pystr) (top_k : Z)
    (l : list (Z * R)) :
  retrieve self query top_k = Ok l ->
  exists scores,
    Forall2 (fun doc s =>
               _score_document self (_tokenize query) doc
                               (Z.of_nat (length doc)) = Ok s)
            (tokenized_docs self) scores
    /\ l = slice_to top_k (sort_desc snd (enumerate scores)).
Proof.
  unfold retrieve. intros H.
  apply bind_Ok in H. destruct H as (out & Hout & H). injection H as <-.
  apply mapM_Ok_inv in Hout.
  assert (G : forall (docs : list (list token)) i out,
            Forall2 (fun (entry : Z * list token) (y : Z * R) =>
                       (let (idx, doc_tokens) := entry in
                        score <- _score_document self (_tokenize query)
                                   doc_tokens (Z.of_nat (length doc_tokens)) ;;
                        Ok (idx, score)) = Ok y)
                    (enumerate_from i docs) out ->
            exists scores,
              Forall2 (fun doc s =>
                         _score_document self (_tokenize query) doc
                                         (Z.of_nat (length doc)) = Ok s)
                      docs scores
              /\ out = enumerate_from i scores).
  { induction docs as [| d docs IH]; simpl; intros i o Ho.
    - inversion Ho; subst. exists []. split; constructor.
    - inversion Ho as [| ? y ? o' Hy Ho']; subst.
      apply bind_Ok in Hy. destruct Hy as (s & Hs & Hy). injection Hy as <-.
      destruct (IH _ _ Ho') as (scores & H2 & ->).
      exists (s :: scores). split; [constructor; assumption | reflexivity]. }
  destruct (G _ _ _ Hout) as (scores & H2 & ->).
  exists scores. split; [exact H2 | reflexivity].
Qed.


Lemma enumerate_from_bounds {A : Type} (i : Z) (l : list A) (e : Z * A) :
  In e (enumerate_from i l) -> (i <= fst e < i + Z.of_nat (length l))%Z.
Proof.
  revert i. induction l as [| x l IH]; simpl; intros i.
  - intros [].
  - intros [<- | I]; [simpl; lia |]. specialize (IH _ I). lia.
Qed.

Lemma enumerate_from_length {A : Type} (i : Z) (l : list A) :
  length (enumerate_from i l) = length l.
Proof.
  revert i. induction l as [| x l IH]; simpl; intros i; [| rewrite IH];
    reflexivity.
Qed.



Lemma slice_to_length {A : Type} (k : Z) (l : list A) :
  (0 <= k)%Z -> length (slice_to k l) = Nat.min (Z.to_nat k) (length l).
Proof.
  intros Hk. unfold slice_to.
  destruct (0 <=? k)%Z eqn:E; [apply length_firstn |].
  apply Z.leb_gt in E. lia.
Qed.


(** The indices of a ranking are positions of documents. *)
Lemma retrieve_indices (self : BM25Retriever) (query : pystr) (top_k : Z)
    (l : list (Z * R)) :
  retrieve self query top_k = Ok l ->
  forall p, In p l ->
    (0 <= fst p < Z.of_nat (length (tokenized_docs self)))%Z.
Proof.
  intros H p I. apply retrieve_inv in H. destruct H as (scores & H2 & ->).
  destruct (slice_to_prefix top_k (sort_desc snd (enumerate scores)))
    as (rest & Hrest).
  assert (I' : In p (enumerate scores)).
  { apply (Permutation_in _ (sort_desc_perm snd _)). rewrite Hrest.
    apply in_or_app. left. exact I. }
  apply enumerate_from_bounds in I'.
  rewrite (Forall2_length H2). lia.
Qed.



(** X8. [top_k] only cuts: if [retrieve] returns for one [top_k], it
    returns for every [top_k], each time the slice [[:top_k]] of one and
    the same ranking of all [N] documents. *)
Theorem retrieve_cuts_one_ranking (self : BM25Retriever) (query : pystr)
    (top_k : Z) (l : list (Z * R)) :
  retrieve self query top_k = Ok l ->
  exists full,
    length full = length (tokenized_docs self)
    /\ forall k, retrieve self query k = Ok (slice_to k full).
Proof.
  intros H. apply retrieve_inv in H. destruct H as (scores & H2 & _).
  exists (sort_desc snd (enumerate scores)). split.
  - rewrite (Permutation_length (sort_desc_perm _ _)).
    unfold enumerate. rewrite enumerate_from_length.
    symmetry. apply (Forall2_length H2).
  - intros k. apply retrieve_scores. exact H2.
Qed.

Lemma retrieve_cuts_one_ranking_witness :
  exists full,
    length full = length (tokenized_docs small_retriever)
    /\ forall k, retrieve small_retriever (str "a") k = Ok (slice_to k full).
Proof.
  destruct (built_retrieve_Ok small_documents default_k1 default_b
              default_epsilon (str "a") 1
              ltac:(unfold default_k1; lra) ltac:(unfold default_b; lra))
    as (l & Hl).
  apply (retrieve_cuts_one_ranking small_retriever (str "a") 1 l Hl).
Defined.

(** *** When scoring raises *)

Lemma divides_by_zero_dec (self : BM25Retriever) (doc : list token) (len : Z)
    (t : token) :
  {divides_by_zero self doc len t} + {~ divides_by_zero self doc len t}.
Proof.
  unfold divides_by_zero.
  destruct (matching self doc t) as [v |].
  - destruct (Req_dec_T (avg_doc_length self) 0) as [E | N].
    + left. split; [discriminate | left; exact E].
    + destruct (Req_dec_T
                  (IZR (term_count doc t)
                   + k1 self * (1 - b self
                                + b self * (IZR len / avg_doc_length self)))
                  0) as [E' | N'].
      * left. split; [discriminate | right; exact E'].
      * right. intros [_ [E | E]]; contradiction.
  - right. intros [H _]. apply H. reflexivity.
Qed.

(** One round of the loop either adds a term that does not depend on the
    score so far, or raises [ZeroDivisionError]. *)
Lemma score_step_cases (self : BM25Retriever) (doc : list token) (len : Z)
    (t : token) :
  (divides_by_zero self doc len t /\
   forall s, score_step self doc len s t = Raise ZeroDivisionError)
  \/ (~ divides_by_zero self doc len t /\
      exists c, forall s, score_step self doc len s t = Ok (s + c)).
Proof.
  destruct (divides_by_zero_dec self doc len t) as [D | N].
  - left. split; [exact D |]. intros s.
    destruct D as [Hm Hz]. unfold score_step. unfold matching in Hm.
    destruct (if (0 <? term_count doc t)%Z then lookup (idf self) t else None)
      as [v |]; [| contradiction].
    unfold truediv at 1.
    destruct (Req_dec_T (avg_doc_length self) 0) as [E | Na];
      [reflexivity |].
    destruct Hz as [E | E]; [contradiction |]. simpl.
    unfold truediv. destruct (Req_dec_T _ 0) as [_ | N']; [reflexivity |].
    contradiction.
  - right. split; [exact N |].
    destruct (matching self doc t) as [v |] eqn:Hm.
    + exists (bm25_term self v (term_count doc t) len). intros s.
      apply score_step_match; [exact Hm | |].
      * intros E. apply N. split; [rewrite Hm; discriminate | left; exact E].
      * intros E. apply N. split; [rewrite Hm; discriminate | right; exact E].
    + exists 0. intros s. rewrite score_step_skip by exact Hm.
      f_equal. lra.
Qed.

Lemma score_loop_cases (self : BM25Retriever) (doc : list token) (len : Z)
    (query : list token) :
  ((exists t, In t query /\ divides_by_zero self doc len t) /\
   forall s, score_loop self doc len query s = Raise ZeroDivisionError)
  \/ ((forall t, In t query -> ~ divides_by_zero self doc len t) /\
      exists c, forall s, score_loop self doc len query s = Ok (s + c)).
Proof.
  induction query as [| t query IH]; simpl.
  - right. split; [intros t [] |]. exists 0. intros s. f_equal. lra.
  - destruct (score_step_cases self doc len t) as [[D Hs] | [N (c & Hs)]].
    + left. split; [exists t; auto |]. intros s. rewrite Hs. reflexivity.
    + destruct IH as [[(t' & I & D) Hq] | [Nq (c' & Hq)]].
      * left. split; [exists t'; auto |]. intros s. rewrite Hs. simpl.
        apply Hq.
      * right. split.
        -- intros t' [<- | I]; [exact N | apply Nq; exact I].
        -- exists (c + c'). intros s. rewrite Hs. simpl. rewrite Hq.
           f_equal. lra.
Qed.

Lemma mapM_Raise {A B : Type} (f : A -> result B) (l : list A) (e : exn) :
  mapM f l = Raise e -> exists x, In x l /\ f x = Raise e.
Proof.
  induction l as [| x l IH]; simpl; intros H.
  - discriminate.
  - destruct (f x) as [y | e'] eqn:Ex; simpl in H.
    + destruct (mapM f l) as [ys | e''] eqn:El; simpl in H; [discriminate |].
      injection H as ->. destruct (IH eq_refl) as (x' & I & E).
      exists x'. auto.
    + injection H as ->. exists x. auto.
Qed.

(** Scoring raises nothing but [ZeroDivisionError]. *)
Lemma retrieve_Raise_inv (self : BM25Retriever) (query : pystr) (top_k : Z)
    (e : exn) :
  retrieve self query top_k = Raise e -> e = ZeroDivisionError.
Proof.
  unfold retrieve. intros H.
  destruct (mapM _ (enumerate (tokenized_docs self))) as [out | e']
    eqn:Hm; simpl in H; [discriminate |].
  injection H as ->. apply mapM_Raise in Hm.
  destruct Hm as ([idx d] & _ & Hs). unfold _score_document in Hs.
  destruct (score_loop_cases self d (Z.of_nat (length d))
              (_tokenize query)) as [[_ Hq] | [_ (c & Hq)]];
    rewrite Hq in Hs; simpl in Hs; [| discriminate].
  injection Hs as <-. reflexivity.
Qed.


(** X10. Query tokens that do not count for a document (tokens the
    document lacks, or for which the table has no weight) play no part in
    its score: the score, or the exception, is that of the query with those
    tokens removed. *)
Theorem score_document_counted_only (self : BM25Retriever)
    (query doc : list token) (len : Z) :
  _score_document self query doc len
  = _score_document self (filter (counts self doc) query) doc len.
Proof.
  unfold _score_document. generalize 0.0.
  induction query as [| t query IH]; intros s; [reflexivity |].
  cbn [filter]. unfold counts at 1.
  destruct (matching self doc t) as [v |] eqn:Hm.
  - cbn [score_loop].
    destruct (score_step self doc len s t) as [s' | e]; simpl;
      [apply IH | reflexivity].
  - cbn [score_loop]. rewrite (score_step_skip self doc len s t Hm). simpl.
    apply IH.
Qed.

End RankerSpec.

(* ================================================================== *)
(** ** More about score fusion *)
(* ================================================================== *)

Module FusionMore.

(** *** The dictionaries *)

Lemma dict_get_set (d : list (Z * R)) (k k' : Z) (v default : R) :
  dict_get (dict_set d k v) k' default
  = if (k =? k')%Z then v else dict_get d k' default.
Proof.
  induction d as [| [u w] d IH]; simpl.
  - reflexivity.
  - destruct (u =? k)%Z eqn:Eu; simpl.
    + apply Z.eqb_eq in Eu. subst u.
      destruct (k =? k')%Z; reflexivity.
    + rewrite IH. destruct (k =? k')%Z eqn:Ek; [| reflexivity].
      apply Z.eqb_eq in Ek. subst k'. rewrite Eu. reflexivity.
Qed.

Lemma keys_dict_set (d : list (Z * R)) (k : Z) (v : R) :
  keys (dict_set d k v)
  = if in_dec Z.eq_dec k (keys d) then keys d else keys d ++ [k].
Proof.
  unfold keys. induction d as [| [u w] d IH]; simpl.
  - reflexivity.
  - destruct (u =? k)%Z eqn:Eu; simpl.
    + apply Z.eqb_eq in Eu. subst u.
      destruct (Z.eq_dec k k) as [_ | N]; [reflexivity | contradiction].
    + apply Z.eqb_neq in Eu. rewrite IH.
      destruct (Z.eq_dec u k) as [E | ?]; [contradiction |].
      destruct (in_dec Z.eq_dec k (map fst d)); reflexivity.
Qed.

Lemma find_append {A : Type} (f : A -> bool) (l1 l2 : list A) :
  find f (l1 ++ l2)
  = match find f l1 with
    | Some x => Some x
    | None => find f l2
    end.
Proof.
  induction l1 as [| x l1 IH]; simpl; [reflexivity |].
  destruct (f x); [reflexivity | exact IH].
Qed.

Lemma dict_from (pairs d : list (Z * R)) (k : Z) (default : R) :
  dict_get (fold_left (fun d kv => dict_set d (fst kv) (snd kv)) pairs d)
           k default
  = match find (fun p => (fst p =? k)%Z) (rev pairs) with
    | Some p => snd p
    | None => dict_get d k default
    end.
Proof.
  revert d. induction pairs as [| [u w] pairs IH]; simpl; intros d.
  - reflexivity.
  - rewrite IH, find_append.
    destruct (find (fun p => (fst p =? k)%Z) (rev pairs)); [reflexivity |].
    simpl. rewrite dict_get_set. destruct (u =? k)%Z; reflexivity.
Qed.

Lemma keys_from (pairs d : list (Z * R)) :
  NoDup (keys d) ->
  NoDup (keys (fold_left (fun d kv => dict_set d (fst kv) (snd kv)) pairs d))
  /\ forall k,
       In k (keys (fold_left (fun d kv => dict_set d (fst kv) (snd kv))
                             pairs d))
       <-> In k (keys d) \/ In k (map fst pairs).
Proof.
  revert d. induction pairs as [| [u w] pairs IH]; simpl; intros d Hd.
  - split; [exact Hd | intros k; tauto].
  - assert (Hd' : NoDup (keys (dict_set d u w))
                  /\ forall k, In k (keys (dict_set d u w))
                               <-> In k (keys d) \/ u = k).
    { rewrite keys_dict_set.
      destruct (in_dec Z.eq_dec u (keys d)) as [I | N].
      - split; [exact Hd |]. intros k. split; [auto |].
        intros [H | <-]; assumption.
      - split.
        + apply NoDup_app; [exact Hd | repeat constructor; intros [] |].
          intros x Hx [<- | []]. contradiction.
        + intros k. rewrite in_app_iff. simpl. tauto. }
    destruct Hd' as [Hnd Hin]. destruct (IH _ Hnd) as [H1 H2].
    split; [exact H1 |]. intros k. rewrite H2, Hin. tauto.
Qed.

(** X11. The dictionary built from a list of pairs gives each index the
    score of its last pair (the default for an index in no pair), and its
    keys are the indices of the pairs, each once. *)
Theorem dict_last_wins (pairs : list (Z * R)) :
  (forall k default,
     dict_get (dict pairs) k default
     = match find (fun p => (fst p =? k)%Z) (rev pairs) with
       | Some p => snd p
       | None => default
       end)
  /\ NoDup (keys (dict pairs))
  /\ (forall k, In k (keys (dict pairs)) <-> In k (map fst pairs)).
Proof.
  unfold dict. split; [| split].
  - intros k default. rewrite dict_from. reflexivity.
  - apply keys_from. constructor.
  - intros k. destruct (keys_from pairs [] (NoDup_nil _)) as [_ H].
    rewrite H. simpl. tauto.
Qed.

(** *** What [combine_results] returns *)

Lemma keys_dict_NoDup (pairs : list (Z * R)) : NoDup (keys (dict pairs)).
Proof. apply keys_from. constructor. Qed.

Lemma keys_dict_In (pairs : list (Z * R)) (k : Z) :
  In k (keys (dict pairs)) <-> In k (map fst pairs).
Proof.
  unfold dict. destruct (keys_from pairs [] (NoDup_nil _)) as [_ H].
  rewrite H. simpl. tauto.
Qed.

(** X12. [combine_results] raises nothing but [ZeroDivisionError], and
    raises it exactly when the two weights add up to zero, whatever the
    lists and [top_k] are. *)
Theorem combine_results_raises (O : SetOrder) (sem bm : list (Z * R))
    (sw bw : R) (k : Z) (e : exn) :
  combine_results O sem bm sw bw k = Raise e
  <-> e = ZeroDivisionError /\ sw + bw = 0.
Proof.
  destruct (Req_dec_T (sw + bw) 0) as [E | N].
  - unfold combine_results. rewrite (normalize_weights_zero sw bw E). simpl.
    split.
    + intros H. injection H as <-. auto.
    + intros [-> _]. reflexivity.
  - rewrite (combine_results_Ok O sem bm sw bw k N). split.
    + discriminate.
    + intros [_ E]. contradiction.
Qed.

(** A fused list is no longer than [top_k], and its indices are
    indices of the inputs. *)
Lemma combine_results_bounds (O : SetOrder) (sem bm : list (Z * R))
    (sw bw : R) (k : Z) (l : list (Z * R)) :
  combine_results O sem bm sw bw k = Ok l ->
  ((0 <= k)%Z -> (length l <= Z.to_nat k)%nat)
  /\ forall p, In p l -> In (fst p) (map fst sem) \/ In (fst p) (map fst bm).
Proof.
  intros H. unfold combine_results in H.
  apply bind_Ok in H. destruct H as (w & _ & H). injection H as <-.
  split.
  - intros Hk. unfold slice_to.
    destruct (0 <=? k)%Z eqn:E; [| apply Z.leb_gt in E; lia].
    rewrite length_firstn. lia.
  - intros p I.
    destruct (slice_to_prefix k
                (sort_desc snd
                   (map (hybrid_pair (fst w) (snd w) (dict sem) (dict bm))
                        (union_iter O (keys (dict sem)) (keys (dict bm))))))
      as (rest & Hrest).
    assert (I' : In p (map (hybrid_pair (fst w) (snd w) (dict sem) (dict bm))
                           (union_iter O (keys (dict sem)) (keys (dict bm))))).
    { apply (Permutation_in _ (sort_desc_perm snd _)). rewrite Hrest.
      apply in_or_app. left. exact I. }
    apply in_map_iff in I'. destruct I' as (i & <- & Ii). simpl.
    apply union_iter_In in Ii. rewrite !keys_dict_In in Ii. exact Ii.
Qed.

(** X13. What [combine_results] returns names no index twice and only
    indices of the two input lists; for [top_k >= 0] it has
    [min(top_k, n)] pairs, [n] being the number of distinct indices of the
    two lists; so with [top_k >= n] every index of either list is there. *)
Theorem combine_results_indices (O : SetOrder) (sem bm : list (Z * R))
    (sw bw : R) (k : Z) (l : list (Z * R)) :
  combine_results O sem bm sw bw k = Ok l ->
  NoDup (map fst l)
  /\ (forall i, In i (map fst l) -> In i (map fst sem) \/ In i (map fst bm))
  /\ ((0 <= k)%Z ->
      length l
      = Nat.min (Z.to_nat k)
                (length (nodup Z.eq_dec (map fst sem ++ map fst bm))))
  /\ ((Z.of_nat (length (nodup Z.eq_dec (map fst sem ++ map fst bm))) <= k)%Z ->
      forall i, In i (map fst sem) \/ In i (map fst bm) -> In i (map fst l)).
Proof.
  intros H. unfold combine_results in H.
  apply bind_Ok in H. destruct H as (w & _ & H). injection H as <-.
  set (h := hybrid_pair (fst w) (snd w) (dict sem) (dict bm)).
  set (it := union_iter O (keys (dict sem)) (keys (dict bm))).
  set (sorted := sort_desc snd (map h it)).
  assert (Hfst : map fst (map h it) = it).
  { rewrite map_map. apply map_id. }
  assert (Hperm : Permutation (map fst sorted) it).
  { pose proof (Permutation_map fst (sort_desc_perm snd (map h it))) as P.
    rewrite Hfst in P. exact P. }
  assert (Hin : forall i, In i it <-> In i (map fst sem) \/ In i (map fst bm)).
  { intros i. unfold it. rewrite union_iter_In, !keys_dict_In. tauto. }
  assert (Hlen : length sorted
                 = length (nodup Z.eq_dec (map fst sem ++ map fst bm))).
  { rewrite <- (length_map fst sorted), (Permutation_length Hperm).
    apply Permutation_length, NoDup_Permutation.
    - apply union_iter_NoDup.
    - apply NoDup_nodup.
    - intros i. rewrite Hin, nodup_In, in_app_iff. tauto. }
  destruct (slice_to_prefix k sorted) as (rest & Hrest).
  split; [| split; [| split]].
  - apply (NoDup_app_remove_r _ (map fst rest)).
    rewrite <- map_app, <- Hrest.
    apply (Permutation_NoDup (Permutation_sym Hperm)), union_iter_NoDup.
  - intros i I. apply Hin. apply (Permutation_in _ Hperm).
    rewrite Hrest, map_app. apply in_or_app. left. exact I.
  - intros Hk. unfold slice_to.
    destruct (0 <=? k)%Z eqn:E; [| apply Z.leb_gt in E; lia].
    rewrite length_firstn, Hlen. reflexivity.
  - intros Hk i I. rewrite PyFacts.slice_to_all by (rewrite Hlen; exact Hk).
    apply (Permutation_in _ (Permutation_sym Hperm)). apply Hin. exact I.
Qed.

Lemma combine_results_indices_witness :
  NoDup (map fst tie_result)
  /\ (forall i, In i (map fst tie_result) ->
        In i (map fst tie_semantic) \/ In i (map fst tie_bm25))
  /\ ((0 <= 5)%Z ->
      length tie_result
      = Nat.min (Z.to_nat 5)
          (length (nodup Z.eq_dec (map fst tie_semantic ++ map fst tie_bm25))))
  /\ ((Z.of_nat (length (nodup Z.eq_dec
                           (map fst tie_semantic ++ map fst tie_bm25)))
       <= 5)%Z ->
      forall i, In i (map fst tie_semantic) \/ In i (map fst tie_bm25) ->
                In i (map fst tie_result)).
Proof.
  apply (combine_results_indices slot_order tie_semantic tie_bm25 0.7 0.3 5).
  exact tie_scenario_result.
Defined.

(** X14. The score of every returned pair is the weighted sum of the two
    scores of its index, with the weights divided by their sum and 0.0 for
    an index that a list lacks. *)
Theorem combine_results_scores (O : SetOrder) (sem bm : list (Z * R))
    (sw bw : R) (k : Z) (l : list (Z * R)) :
  combine_results O sem bm sw bw k = Ok l ->
  forall i s, In (i, s) l ->
    s = sw / (sw + bw) * dict_get (dict sem) i 0
        + bw / (sw + bw) * dict_get (dict bm) i 0.
Proof.
  intros H i s I.
  destruct (Req_dec_T (sw + bw) 0) as [E | N].
  - unfold combine_results in H.
    rewrite (normalize_weights_zero sw bw E) in H. discriminate.
  - rewrite (combine_results_Ok O sem bm sw bw k N) in H. injection H as <-.
    destruct (slice_to_prefix k
                (sort_desc snd
                   (map (hybrid_pair (sw / (sw + bw)) (bw / (sw + bw))
                                     (dict sem) (dict bm))
                        (union_iter O (keys (dict sem)) (keys (dict bm))))))
      as (rest & Hrest).
    assert (I' : In (i, s)
                    (map (hybrid_pair (sw / (sw + bw)) (bw / (sw + bw))
                                      (dict sem) (dict bm))
                         (union_iter O (keys (dict sem)) (keys (dict bm))))).
    { apply (Permutation_in _ (sort_desc_perm snd _)). rewrite Hrest.
      apply in_or_app. left. exact I. }
    apply in_map_iff in I'. destruct I' as (j & Ej & _).
    unfold hybrid_pair in Ej. injection Ej as -> <-. reflexivity.
Qed.

Lemma combine_results_scores_witness :
  0.35 = 0.7 / (0.7 + 0.3) * dict_get (dict [(1%Z, 0.5); (8%Z, 0.5)]) 8 0
         + 0.3 / (0.7 + 0.3) * dict_get (dict []) 8 0.
Proof.
  apply (combine_results_scores slot_order [(1%Z, 0.5); (8%Z, 0.5)] []
           0.7 0.3 5 _ tie_scenario_result 8%Z 0.35).
  left. reflexivity.
Defined.

(** *** More about [normalize_scores] *)










End FusionMore.

(* ================================================================== *)
(** ** Properties of the hybrid retriever *)
(* ================================================================== *)

Module HybridSpec.

Lemma obind_Return {A B : Type} (c : outcome A) (k : A -> outcome B) (y : B) :
  obind c k = Return y -> exists x, c = Return x /\ k x = Return y.
Proof.
  destruct c as [x | e]; simpl; intros H.
  - exists x. split; [reflexivity | exact H].
  - discriminate H.
Qed.

Lemma lift_Return {A : Type} (c : result A) (x : A) :
  lift c = Return x -> c = Ok x.
Proof. destruct c; simpl; intros H; [injection H as <- | discriminate]; reflexivity. Qed.

Lemma mapO_Return_inv {A B : Type} (f : A -> outcome B) (l : list A)
    (out : list B) :
  mapO f l = Return out -> Forall2 (fun x y => f x = Return y) l out.
Proof.
  revert out. induction l as [| x l IH]; simpl; intros out H.
  - injection H as <-. constructor.
  - apply obind_Return in H. destruct H as (y & Hy & H).
    apply obind_Return in H. destruct H as (ys & Hys & H).
    injection H as <-. constructor; [exact Hy | apply IH; exact Hys].
Qed.

Lemma mapO_total {A B : Type} (f : A -> outcome B) (g : A -> B) (l : list A) :
  (forall x, In x l -> f x = Return (g x)) -> mapO f l = Return (map g l).
Proof.
  induction l as [| x l IH]; simpl; intros H.
  - reflexivity.
  - rewrite (H x (or_introl eq_refl)). simpl.
    rewrite IH by (intros y Hy; apply H; right; exact Hy).
    reflexivity.
Qed.

Lemma Forall2_map_eq {A B : Type} (f : A -> outcome B) (g : A -> B)
    (l : list A) (out : list B) :
  Forall2 (fun x y => f x = Return y) l out ->
  (forall x, In x l -> f x = Return (g x)) -> out = map g l.
Proof.
  induction 1 as [| x y l out Hxy _ IH]; simpl; intros H.
  - reflexivity.
  - rewrite (H x (or_introl eq_refl)) in Hxy. injection Hxy as <-.
    f_equal. apply IH. intros z I. apply H. right. exact I.
Qed.

(** Indexing a list at a position of [range(len(l))] never raises. *)
Lemma getitem_range {A : Type} (l : list A) (i : Z) :
  In i (range (length l)) ->
  exists x, getitem l i = Return x /\ nth_error l (Z.to_nat i) = Some x
            /\ (0 <= i < Z.of_nat (length l))%Z.
Proof.
  unfold range. intros I. apply in_map_iff in I.
  destruct I as (j & <- & I). apply in_seq in I.
  destruct (nth_error l j) as [x |] eqn:E.
  - exists x. unfold getitem.
    destruct (Z.of_nat j <? 0)%Z eqn:En; [apply Z.ltb_lt in En; lia |].
    assert (Hb : ((0 <=? Z.of_nat j) && (Z.of_nat j <? Z.of_nat (length l)))%Z
                 = true).
    { apply andb_true_iff. split; [apply Z.leb_le | apply Z.ltb_lt]; lia. }
    rewrite Hb, Nat2Z.id, E. split; [reflexivity |]. split; [reflexivity | lia].
  - apply nth_error_None in E. lia.
Qed.

Lemma NoDup_map_injective {A B : Type} (f : A -> B) (l : list A) :
  (forall x y, f x = f y -> x = y) -> NoDup l -> NoDup (map f l).
Proof.
  intros Hf. induction 1 as [| x l Hx _ IH]; simpl; constructor.
  - intros I. apply in_map_iff in I. destruct I as (y & E & I).
    apply Hf in E. subst y. contradiction.
  - exact IH.
Qed.

Lemma range_NoDup (n : nat) : NoDup (range n).
Proof.
  unfold range. apply NoDup_map_injective.
  - intros x y H. lia.
  - apply seq_NoDup.
Qed.

(** A dictionary all of whose values are 0.0 answers 0.0. *)
Lemma dict_get_zero (pairs : list (Z * R)) (k : Z) :
  Forall (fun p => snd p = 0.0) pairs -> dict_get (dict pairs) k 0.0 = 0.0.
Proof.
  intros H. unfold dict. rewrite FusionMore.dict_from.
  destruct (find (fun p => (fst p =? k)%Z) (rev pairs)) as [p |] eqn:E.
  - apply find_some in E. destruct E as [I _]. apply in_rev in I.
    rewrite Forall_forall in H. apply H. exact I.
  - reflexivity.
Qed.

(** *** Construction *)

(** X17. Building a hybrid retriever raises nothing but
    [ZeroDivisionError], and raises it exactly when the two weights add up
    to zero or the document list is empty.  When it returns, the stored
    weights are the given ones, each divided by their sum, the documents
    and the semantic scores are stored as given, and the lexical ranker is
    the BM25 ranker of the documents with its default parameters. *)
Theorem hybrid_init_spec (docs : list pystr) (scores : list (list R))
    (sw bw : R) :
  (forall e, Hybrid.__init__ docs scores sw bw = Raise e
             <-> e = ZeroDivisionError /\ (sw + bw = 0 \/ docs = []))
  /\ (forall h, Hybrid.__init__ docs scores sw bw = Ok h ->
        Hybrid.semantic_weight h = sw / (sw + bw)
        /\ Hybrid.bm25_weight h = bw / (sw + bw)
        /\ Hybrid.documents h = docs
        /\ Hybrid.semantic_scores h = scores
        /\ BM25.__init__ docs default_k1 default_b default_epsilon
           = Ok (Hybrid.bm25_retriever h)).
Proof.
  unfold Hybrid.__init__.
  destruct (Req_dec_T (sw + bw) 0) as [E | N].
  - rewrite E, truediv_zero. simpl. split.
    + intros e. split.
      * intros H. injection H as <-. auto.
      * intros [-> _]. reflexivity.
    + intros h H. discriminate.
  - rewrite !truediv_Ok by exact N. simpl.
    destruct docs as [| d docs].
    + rewrite init_empty. simpl. split.
      * intros e. split.
        -- intros H. injection H as <-. auto.
        -- intros [-> _]. reflexivity.
      * intros h H. discriminate.
    + rewrite init_built by discriminate. simpl. split.
      * intros e. split; [discriminate |].
        intros [_ [E | E]]; [contradiction | discriminate].
      * intros h H. injection H as <-. simpl.
        repeat split; reflexivity.
Qed.

(** *** Retrieval *)

Lemma hybrid_entry_Return (self : Hybrid.HybridRetriever)
    (bm25_results : list (Z * R)) (idx : Z) :
  In idx (range (length (Hybrid.documents self))) ->
  Hybrid.hybrid_entry self (dict bm25_results)
    (dict (map (fun i => (i, 0.0)) (range (length (Hybrid.documents self)))))
    idx
  = Return (entry_of self bm25_results idx).
Proof.
  intros I. unfold Hybrid.hybrid_entry.
  destruct (getitem_range _ _ I) as (doc & Hg & Hn & _).
  rewrite Hg. simpl. rewrite dict_get_zero.
  - unfold entry_of. rewrite (nth_error_nth _ _ _ Hn). reflexivity.
  - apply Forall_forall. intros p Ip. apply in_map_iff in Ip.
    destruct Ip as (i & <- & _). reflexivity.
Qed.

Lemma hybrid_retrieve_eq (self : Hybrid.HybridRetriever) (query : pystr)
    (query_embedding : list R) (top_k : Z) :
  Hybrid.retrieve self query query_embedding top_k
  = match BM25.retrieve (Hybrid.bm25_retriever self) query (top_k * 2) with
    | Ok bm25_results =>
        Return (slice_to top_k
                  (sort_desc Hybrid.hybrid_score
                     (map (entry_of self bm25_results)
                          (range (length (Hybrid.documents self))))))
    | Raise e => Throw (Builtin e)
    end.
Proof.
  unfold Hybrid.retrieve.
  destruct (BM25.retrieve (Hybrid.bm25_retriever self) query (top_k * 2))
    as [bm25_results | e]; simpl; [| reflexivity].
  rewrite (mapO_total _ (entry_of self bm25_results)).
  - reflexivity.
  - intros idx I. apply hybrid_entry_Return. exact I.
Qed.

(** X18. Every entry [retrieve] returns has semantic score 0.0, so that
    its hybrid score is the stored lexical weight times its lexical score;
    its lexical score is the one BM25 gave it among its first
    [2 * top_k] results, and 0.0 if it is not among them; its document is
    the document at its index.  The entries are in descending order of
    hybrid score, no index twice, and for [top_k >= 0] there are
    [min(top_k, N)] of them.  The query embedding plays no part. *)
Theorem hybrid_retrieve_entries (self : Hybrid.HybridRetriever)
    (query : pystr) (query_embedding : list R) (top_k : Z)
    (l : list Hybrid.entry) :
  Hybrid.retrieve self query query_embedding top_k = Return l ->
  exists bm25_results,
    BM25.retrieve (Hybrid.bm25_retriever self) query (top_k * 2)
    = Ok bm25_results
    /\ (forall e, In e l ->
          Hybrid.semantic_score e = 0.0
          /\ Hybrid.bm25_score e
             = dict_get (dict bm25_results) (Hybrid.index e) 0.0
          /\ Hybrid.hybrid_score e
             = Hybrid.bm25_weight self * Hybrid.bm25_score e
          /\ nth_error (Hybrid.documents self) (Z.to_nat (Hybrid.index e))
             = Some (Hybrid.document e)
          /\ (0 <= Hybrid.index e)%Z)
    /\ descending Hybrid.hybrid_score l
    /\ NoDup (map Hybrid.index l)
    /\ ((0 <= top_k)%Z ->
        length l = Nat.min (Z.to_nat top_k) (length (Hybrid.documents self))).
Proof.
  rewrite hybrid_retrieve_eq.
  destruct (BM25.retrieve (Hybrid.bm25_retriever self) query (top_k * 2))
    as [bm25_results | e]; [| discriminate].
  intros H. injection H as <-. exists bm25_results.
  split; [reflexivity |].
  set (all := map (entry_of self bm25_results)
                  (range (length (Hybrid.documents self)))).
  destruct (slice_to_prefix top_k (sort_desc Hybrid.hybrid_score all))
    as (rest & Hrest).
  pose proof (sort_desc_perm Hybrid.hybrid_score all) as Hperm.
  split; [| split; [| split]].
  - intros e I.
    assert (I' : In e all).
    { apply (Permutation_in _ Hperm). rewrite Hrest.
      apply in_or_app. left. exact I. }
    apply in_map_iff in I'. destruct I' as (idx & <- & Iidx).
    destruct (getitem_range _ _ Iidx) as (doc & _ & Hn & Hb).
    unfold entry_of. cbn.
    split; [reflexivity |]. split; [reflexivity |]. split; [lra |].
    split; [| lia]. rewrite (nth_error_nth _ _ _ Hn). exact Hn.
  - apply descending_slice, sort_desc_sorted.
  - apply (NoDup_app_remove_r _ (map Hybrid.index rest)).
    rewrite <- map_app, <- Hrest.
    apply (Permutation_NoDup
             (Permutation_sym (Permutation_map Hybrid.index Hperm))).
    unfold all. rewrite map_map. cbn. rewrite map_id. apply range_NoDup.
  - intros Hk. rewrite RankerSpec.slice_to_length by exact Hk. f_equal.
    rewrite (Permutation_length Hperm). unfold all, range.
    rewrite !length_map, length_seq. reflexivity.
Qed.

Lemma hybrid_retrieve_entries_witness :
  exists l bm25_results,
    Hybrid.retrieve small_hybrid (str "a") [] 1 = Return l
    /\ BM25.retrieve (Hybrid.bm25_retriever small_hybrid) (str "a") (1 * 2)
       = Ok bm25_results
    /\ (forall e, In e l ->
          Hybrid.semantic_score e = 0.0
          /\ Hybrid.bm25_score e
             = dict_get (dict bm25_results) (Hybrid.index e) 0.0
          /\ Hybrid.hybrid_score e
             = Hybrid.bm25_weight small_hybrid * Hybrid.bm25_score e
          /\ nth_error (Hybrid.documents small_hybrid)
                       (Z.to_nat (Hybrid.index e))
             = Some (Hybrid.document e)
          /\ (0 <= Hybrid.index e)%Z)
    /\ descending Hybrid.hybrid_score l
    /\ NoDup (map Hybrid.index l)
    /\ ((0 <= 1)%Z ->
        length l
        = Nat.min (Z.to_nat 1) (length (Hybrid.documents small_hybrid))).
Proof.
  destruct (RankerSpec.built_retrieve_Ok small_documents default_k1
              default_b default_epsilon (str "a") (1 * 2)
              ltac:(unfold default_k1; lra) ltac:(unfold default_b; lra))
    as (bm & Hbm).
  assert (H : Hybrid.retrieve small_hybrid (str "a") [] 1
              = Return (slice_to 1
                          (sort_desc Hybrid.hybrid_score
                             (map (entry_of small_hybrid bm)
                                  (range (length (Hybrid.documents
                                                    small_hybrid))))))).
  { rewrite hybrid_retrieve_eq.
    change (Hybrid.bm25_retriever small_hybrid)
      with (built small_documents default_k1 default_b default_epsilon).
    rewrite Hbm. reflexivity. }
  destruct (hybrid_retrieve_entries small_hybrid (str "a") [] 1 _ H)
    as (bm' & H1 & H2).
  eexists. exists bm'. split; [exact H |]. split; [exact H1 | exact H2].
Defined.

(** X19. [retrieve] of the hybrid retriever raises exactly when the
    lexical ranker raises for [2 * top_k], and then the same
    [ZeroDivisionError]: its own indexing of the documents never fails. *)
Theorem hybrid_retrieve_raises (self : Hybrid.HybridRetriever)
    (query : pystr) (query_embedding : list R) (top_k : Z) (e : exception) :
  Hybrid.retrieve self query query_embedding top_k = Throw e
  <-> e = Builtin ZeroDivisionError
      /\ BM25.retrieve (Hybrid.bm25_retriever self) query (top_k * 2)
         = Raise ZeroDivisionError.
Proof.
  rewrite hybrid_retrieve_eq.
  destruct (BM25.retrieve (Hybrid.bm25_retriever self) query (top_k * 2))
    as [bm25_results | e'] eqn:Hb.
  - split; [discriminate | intros [_ H]; discriminate].
  - assert (e' = ZeroDivisionError)
      by (apply (RankerSpec.retrieve_Raise_inv _ _ _ _ Hb)).
    subst e'. split.
    + intros H. injection H as <-. auto.
    + intros [-> _]. reflexivity.
Qed.

(** *** Re-ranking *)

Lemma field_set_same (d : record) (k : string) (v : value) :
  field (set_field d k v) k = Some v.
Proof.
  induction d as [| [k' v'] d IH]; simpl.
  - rewrite String.eqb_refl. reflexivity.
  - destruct (String.eqb k' k) eqn:E; simpl.
    + rewrite String.eqb_refl. reflexivity.
    + rewrite E. exact IH.
Qed.

Lemma field_set_other (d : record) (k k' : string) (v : value) :
  k' <> k -> field (set_field d k v) k' = field d k'.
Proof.
  intros N. induction d as [| [u w] d IH]; simpl.
  - destruct (String.eqb k k') eqn:E; [| reflexivity].
    apply String.eqb_eq in E. congruence.
  - destruct (String.eqb u k) eqn:E; simpl.
    + apply String.eqb_eq in E. subst u.
      destruct (String.eqb k k') eqn:E'; [| reflexivity].
      apply String.eqb_eq in E'. congruence.
    + destruct (String.eqb u k'); [reflexivity | exact IH].
Qed.

Lemma dict_get_absent (d : list (Z * R)) (k : Z) (default : R) :
  ~ In k (keys d) -> dict_get d k default = default.
Proof.
  unfold keys. induction d as [| [u w] d IH]; simpl; intros N.
  - reflexivity.
  - destruct (u =? k)%Z eqn:E.
    + apply Z.eqb_eq in E. exfalso. apply N. left. exact E.
    + apply IH. intros I. apply N. right. exact I.
Qed.

Lemma as_number_cases (v : value) :
  (exists s, as_number v = Return s /\ ~ not_a_number v)
  \/ (as_number v = Throw TypeError /\ not_a_number v).
Proof.
  destruct v; simpl.
  - left. eexists. split; [reflexivity | tauto].
  - left. eexists. split; [reflexivity | tauto].
  - right. split; [reflexivity | exact Logic.I].
  - right. split; [reflexivity | exact Logic.I].
Qed.

Lemma rerank_entry_cases (self : Hybrid.HybridRetriever)
    (bm25_scores : list (Z * R)) (result : record) :
  let b := get_any bm25_scores (get_field result "index" (VInt (-1))) 0.0 in
  (exists s,
     as_number (get_field result "score" (VFloat 0.0)) = Return s
     /\ Hybrid.rerank_entry self bm25_scores result
        = Return (set_field (set_field result "bm25_score" (VFloat b))
                    "hybrid_score"
                    (VFloat (Hybrid.semantic_weight self * s
                             + Hybrid.bm25_weight self * b))))
  \/ (not_a_number (get_field result "score" (VFloat 0.0))
      /\ Hybrid.rerank_entry self bm25_scores result = Throw TypeError).
Proof.
  intros b. unfold Hybrid.rerank_entry.
  fold (get_field result "index" (VInt (-1))).
  fold (get_field result "score" (VFloat 0.0)). fold b.
  destruct (as_number_cases (get_field result "score" (VFloat 0.0)))
    as [(s & Hs & _) | [Hs Hn]]; rewrite Hs; simpl.
  - left. exists s. split; reflexivity.
  - right. split; [exact Hn | reflexivity].
Qed.

Lemma mapO_cases {A B : Type} (f : A -> outcome B) (l : list A)
    (e : exception) :
  (forall x e', f x = Throw e' -> e' = e) ->
  (exists out, mapO f l = Return out /\ Forall2 (fun x y => f x = Return y) l out)
  \/ (mapO f l = Throw e /\ exists x, In x l /\ f x = Throw e).
Proof.
  intros Hf. induction l as [| x l IH]; simpl.
  - left. exists []. split; [reflexivity | constructor].
  - destruct (f x) as [y | e'] eqn:Ex; simpl.
    + destruct IH as [(out & -> & H2) | [-> (x' & I & Hx')]]; simpl.
      * left. exists (y :: out). split; [reflexivity |].
        constructor; assumption.
      * right. split; [reflexivity |]. exists x'. split; [right |]; assumption.
    + pose proof (Hf x e' Ex) as ->. right. split; [reflexivity |].
      exists x. split; [left; reflexivity | exact Ex].
Qed.

Lemma rerank_entry_Throw (self : Hybrid.HybridRetriever)
    (bm25_scores : list (Z * R)) (result : record) (e : exception) :
  Hybrid.rerank_entry self bm25_scores result = Throw e -> e = TypeError.
Proof.
  intros H.
  destruct (rerank_entry_cases self bm25_scores result)
    as [(s & _ & Hr) | [_ Hr]]; rewrite Hr in H.
  - discriminate.
  - injection H as <-. reflexivity.
Qed.

(** The lexical score of a record with no index, or with an index that is
    no document of the ranker, is the default. *)
Lemma get_any_negative (bm25_results : list (Z * R)) (z : Z) :
  Forall (fun p => (0 <= fst p)%Z) bm25_results -> (z < 0)%Z ->
  get_any (dict bm25_results) (VInt z) 0.0 = 0.0.
Proof.
  intros H Hz. simpl. apply dict_get_absent. intros I.
  apply (proj1 (FusionMore.keys_dict_In _ _)) in I. apply in_map_iff in I.
  destruct I as (p & <- & I). rewrite Forall_forall in H.
  specialize (H p I). lia.
Qed.

(** X23. When [retrieve_with_rerank] returns, every record it returns is
    a copy of one of the initial results with two fields set: its
    [bm25_score] is the float the lexical ranker gave to the record's
    index among its first [2 * top_k] results, and 0.0 when the record has
    no index (the default index -1 is no document); its [hybrid_score] is
    the weighted sum of the record's score (0.0 when it has none) and that
    lexical score; every other field is as in the initial result.  The
    records come in descending order of hybrid score, and for
    [top_k >= 0] there are [min(top_k, len(initial_results))] of them. *)
Theorem rerank_entries (self : Hybrid.HybridRetriever) (query : pystr)
    (initial_results : list record) (top_k : Z) (l : list record) :
  Hybrid.retrieve_with_rerank self query initial_results top_k = Return l ->
  exists bm25_results,
    BM25.retrieve (Hybrid.bm25_retriever self) query (top_k * 2)
    = Ok bm25_results
    /\ (forall r', In r' l ->
          exists r s b,
            In r initial_results
            /\ as_number (get_field r "score" (VFloat 0.0)) = Return s
            /\ b = get_any (dict bm25_results)
                           (get_field r "index" (VInt (-1))) 0.0
            /\ (field r "index" = None -> b = 0.0)
            /\ field r' "bm25_score" = Some (VFloat b)
            /\ field r' "hybrid_score"
               = Some (VFloat (Hybrid.semantic_weight self * s
                               + Hybrid.bm25_weight self * b))
            /\ forall k, k <> "bm25_score"%string ->
                         k <> "hybrid_score"%string ->
                         field r' k = field r k)
    /\ descending Hybrid.hybrid_key l
    /\ ((0 <= top_k)%Z ->
        length l = Nat.min (Z.to_nat top_k) (length initial_results)).
Proof.
  unfold Hybrid.retrieve_with_rerank. intros H.
  destruct (BM25.retrieve (Hybrid.bm25_retriever self) query (top_k * 2))
    as [bm25_results | e] eqn:Hb; [| discriminate].
  simpl in H. exists bm25_results. split; [reflexivity |].
  destruct (mapO_cases (Hybrid.rerank_entry self (dict bm25_results))
              initial_results TypeError
              (rerank_entry_Throw self (dict bm25_results)))
    as [(reranked & Hm & H2) | [Hm _]]; rewrite Hm in H; [| discriminate].
  simpl in H. injection H as <-.
  destruct (slice_to_prefix top_k (sort_desc Hybrid.hybrid_key reranked))
    as (rest & Hrest).
  pose proof (sort_desc_perm Hybrid.hybrid_key reranked) as Hperm.
  split; [| split].
  - intros r' I.
    assert (I' : In r' reranked).
    { apply (Permutation_in _ Hperm). rewrite Hrest.
      apply in_or_app. left. exact I. }
    clear - I' H2 Hb.
    induction H2 as [| r y initial reranked Hr H2 IH]; [destruct I' |].
    destruct I' as [-> | I'].
    + destruct (rerank_entry_cases self (dict bm25_results) r)
        as [(s & Hs & Hr') | [_ Hr']]; rewrite Hr' in Hr; [| discriminate].
      injection Hr as <-.
      exists r, s,
        (get_any (dict bm25_results) (get_field r "index" (VInt (-1))) 0.0).
      split; [left; reflexivity |]. split; [exact Hs |].
      split; [reflexivity |]. split; [| split; [| split]].
      * intros Hnone. unfold get_field. rewrite Hnone.
        apply get_any_negative; [| lia].
        apply Forall_forall. intros p Ip.
        apply (RankerSpec.retrieve_indices _ _ _ _ Hb p Ip).
      * rewrite field_set_other by discriminate. apply field_set_same.
      * apply field_set_same.
      * intros k N1 N2. rewrite !field_set_other by assumption. reflexivity.
    + destruct (IH I') as (r0 & s & b & I0 & Hrest0).
      exists r0, s, b. split; [right; exact I0 | exact Hrest0].
  - apply descending_slice, sort_desc_sorted.
  - intros Hk. rewrite RankerSpec.slice_to_length by exact Hk. f_equal.
    rewrite (Permutation_length Hperm).
    symmetry. apply (Forall2_length H2).
Qed.

Lemma rerank_entries_witness :
  exists l bm25_results,
    Hybrid.retrieve_with_rerank small_hybrid (str "a") small_results 2
    = Return l
    /\ BM25.retrieve (Hybrid.bm25_retriever small_hybrid) (str "a") (2 * 2)
       = Ok bm25_results
    /\ (forall r', In r' l ->
          exists r s b,
            In r small_results
            /\ as_number (get_field r "score" (VFloat 0.0)) = Return s
            /\ b = get_any (dict bm25_results)
                           (get_field r "index" (VInt (-1))) 0.0
            /\ (field r "index" = None -> b = 0.0)
            /\ field r' "bm25_score" = Some (VFloat b)
            /\ field r' "hybrid_score"
               = Some (VFloat (Hybrid.semantic_weight small_hybrid * s
                               + Hybrid.bm25_weight small_hybrid * b))
            /\ forall k, k <> "bm25_score"%string ->
                         k <> "hybrid_score"%string ->
                         field r' k = field r k)
    /\ descending Hybrid.hybrid_key l
    /\ ((0 <= 2)%Z ->
        length l = Nat.min (Z.to_nat 2) (length small_results)).
Proof.
  destruct (RankerSpec.built_retrieve_Ok small_documents default_k1
              default_b default_epsilon (str "a") (2 * 2)
              ltac:(unfold default_k1; lra) ltac:(unfold default_b; lra))
    as (bm & Hbm).
  destruct (mapO_cases (Hybrid.rerank_entry small_hybrid (dict bm))
              small_results TypeError
              (rerank_entry_Throw small_hybrid (dict bm)))
    as [(reranked & Hm & _) | [_ (r & I & Hr)]].
  - assert (H : Hybrid.retrieve_with_rerank small_hybrid (str "a")
                  small_results 2
                = Return (slice_to 2 (sort_desc Hybrid.hybrid_key reranked))).
    { unfold Hybrid.retrieve_with_rerank.
      change (Hybrid.bm25_retriever small_hybrid)
        with (built small_documents default_k1 default_b default_epsilon).
      rewrite Hbm. cbv beta iota delta [lift obind]. rewrite Hm.
      reflexivity. }
    destruct (rerank_entries small_hybrid (str "a") small_results 2 _ H)
      as (bm' & H1 & H2).
    eexists. exists bm'. split; [exact H |]. split; [exact H1 | exact H2].
  - exfalso.
    destruct (rerank_entry_cases small_hybrid (dict bm) r) as
      [(s & _ & Hr') | [Hn _]]; [rewrite Hr' in Hr; discriminate |].
    destruct I as [<- | [<- | [<- | []]]]; exact Hn.
Defined.


(** *** The hybrid ranking is the lexical ranking *)

Section Sorted.
Context {A : Type}.






Variables (key : A -> R) (idx : A -> Z).




End Sorted.







Section Collapse.
Variables (self : Hybrid.HybridRetriever) (scores : list R) (n2 : nat).
Hypothesis Hpos : Forall (fun s => 0 <= s) scores.
Hypothesis Hw : 0 < Hybrid.bm25_weight self.

Local Abbreviation ranking := (sort_desc snd (enumerate scores)).
Local Abbreviation seen := (firstn n2 ranking).
Local Abbreviation unseen :=
  (filter (fun i => negb (existsb (Z.eqb i) (map fst seen)))
          (range (length scores))).















End Collapse.




End HybridSpec.

(* ================================================================== *)
(** ** Properties of the hybrid branch of the question handler *)
(* ================================================================== *)

Module ChatRagSpec.

Lemma getitem_nonneg {A : Type} (l : list A) (i : Z) :
  (0 <= i)%Z ->
  getitem l i = match nth_error l (Z.to_nat i) with
                | Some x => Return x
                | None => Throw IndexError
                end.
Proof.
  intros Hi. unfold getitem.
  destruct (i <? 0)%Z eqn:E; [apply Z.ltb_lt in E; lia |].
  destruct ((0 <=? i) && (i <? Z.of_nat (length l)))%Z eqn:Eb.
  - reflexivity.
  - destruct (nth_error l (Z.to_nat i)) as [x |] eqn:En; [| reflexivity].
    exfalso. assert (Hlt : (Z.to_nat i < length l)%nat)
      by (apply nth_error_Some; rewrite En; discriminate).
    apply andb_false_iff in Eb.
    destruct Eb as [Eb | Eb];
      [apply Z.leb_gt in Eb | apply Z.ltb_ge in Eb]; lia.
Qed.

Section SelectFacts.
Context {D : Type}.
Variables (semantic_docs : list D) (combined : list (Z * R)).

(** The loop over pairs with non-negative indices: it raises [IndexError]
    at the first kept pair whose index is not a position of the fused
    list, and otherwise adds, for each kept pair, the document at its index
    and the score entry [reported]. *)
Lemma select_loop_cases (todo : list (Z * R)) :
  Forall (fun p => (0 <= fst p)%Z) todo ->
  ((exists p, In p (chosen semantic_docs todo)
              /\ (Z.of_nat (length combined) <= fst p)%Z)
   /\ forall rd sc,
        ChatRag.select_loop semantic_docs combined todo rd sc
        = Throw IndexError)
  \/ (Forall (fun p => (fst p < Z.of_nat (length combined))%Z)
             (chosen semantic_docs todo)
      /\ exists docs,
           Forall2 (fun p d => nth_error semantic_docs (Z.to_nat (fst p))
                               = Some d)
                   (chosen semantic_docs todo) docs
           /\ forall rd sc,
                ChatRag.select_loop semantic_docs combined todo rd sc
                = Return (rd ++ docs,
                          sc ++ map (reported combined)
                                    (chosen semantic_docs todo))).
Proof.
  unfold chosen.
  induction todo as [| [idx s] todo IH]; intros Hpos.
  - right. split; [constructor |]. exists []. split; [constructor |].
    intros rd sc. simpl. rewrite !app_nil_r. reflexivity.
  - inversion Hpos as [| ? ? Hidx Hpos']; subst. simpl in Hidx.
    specialize (IH Hpos'). simpl filter. simpl ChatRag.select_loop.
    destruct (idx <? Z.of_nat (length semantic_docs))%Z eqn:Elt.
    + apply Z.ltb_lt in Elt.
      rewrite (getitem_nonneg semantic_docs idx Hidx).
      destruct (nth_error semantic_docs (Z.to_nat idx)) as [d |] eqn:Ed;
        [| apply nth_error_None in Ed; lia].
      rewrite (getitem_nonneg combined idx Hidx).
      destruct (nth_error combined (Z.to_nat idx)) as [pair |] eqn:Ep.
      * assert (Hin : (idx < Z.of_nat (length combined))%Z).
        { assert (Z.to_nat idx < length combined)%nat
            by (apply nth_error_Some; rewrite Ep; discriminate). lia. }
        destruct IH as [[(p & Ip & Hp) Hall] | [Hall (docs & H2 & Hret)]].
        -- left. split; [exists p; split; [right; exact Ip | exact Hp] |].
           intros rd sc. simpl. apply Hall.
        -- right. split; [constructor; [exact Hin | exact Hall] |].
           exists (d :: docs). split; [constructor; [exact Ed | exact H2] |].
           intros rd sc. simpl. rewrite Hret.
           rewrite <- !app_assoc. simpl. unfold reported at 2. simpl.
           rewrite (nth_error_nth _ _ _ Ep). reflexivity.
      * left. split.
        -- exists (idx, s). split; [left; reflexivity |]. simpl.
           apply nth_error_None in Ep. lia.
        -- intros rd sc. reflexivity.
    + destruct IH as [[(p & Ip & Hp) Hall] | [Hall (docs & H2 & Hret)]].
      * left. split; [exists p; auto | exact Hall].
      * right. split; [exact Hall |]. exists docs. split; [exact H2 | exact Hret].
Qed.

End SelectFacts.

(** *** The branch *)

Section Branch.
Context {D : Type}.
Variables (O : SetOrder) (semantic_docs : list D) (all_docs : list pystr)
          (question : pystr) (semantic_weight bm25_weight : R).

Lemma fused_shape (combined : list (Z * R)) :
  fused O semantic_docs all_docs question semantic_weight
        bm25_weight combined ->
  (length combined <= 5)%nat
  /\ Forall (fun p => (0 <= fst p)%Z) combined.
Proof.
  intros (ranker & bm25_results & _ & Hret & Hcomb).
  apply FusionMore.combine_results_bounds in Hcomb.
  destruct Hcomb as [Hlen Hidx]. split.
  - apply (Hlen ltac:(lia)).
  - apply Forall_forall. intros p I. destruct (Hidx p I) as [J | J].
    + rewrite map_map in J. simpl in J. apply in_map_iff in J.
      destruct J as (e & <- & J).
      apply RankerSpec.enumerate_from_bounds in J. lia.
    + apply in_map_iff in J. destruct J as (p' & <- & J).
      apply (RankerSpec.retrieve_indices _ _ _ _ Hret p' J).
Qed.

Lemma hybrid_branch_fused (combined : list (Z * R)) :
  fused O semantic_docs all_docs question semantic_weight
        bm25_weight combined ->
  ChatRag.hybrid_branch O semantic_docs all_docs question
                        semantic_weight bm25_weight
  = ChatRag.select_loop semantic_docs combined combined [] [].
Proof.
  intros (ranker & bm25_results & Hinit & Hret & Hcomb).
  unfold ChatRag.hybrid_branch. rewrite Hinit. simpl.
  rewrite Hret. simpl. rewrite Hcomb. reflexivity.
Qed.

(** The branch gets as far as the loop, or one of the three calls has
    raised. *)
Lemma hybrid_branch_cases :
  (exists combined, fused O semantic_docs all_docs question semantic_weight
        bm25_weight combined)
  \/ exists e,
       ChatRag.hybrid_branch O semantic_docs all_docs question
                             semantic_weight bm25_weight
       = Throw (Builtin e).
Proof.
  unfold ChatRag.hybrid_branch.
  destruct (BM25.__init__ all_docs default_k1 default_b default_epsilon)
    as [ranker | e] eqn:Hi; [| right; exists e; reflexivity].
  simpl.
  destruct (BM25.retrieve ranker question 10) as [bm25_results | e] eqn:Hr;
    [| right; exists e; reflexivity].
  simpl.
  destruct (combine_results O _ bm25_results semantic_weight bm25_weight 5)
    as [combined | e] eqn:Hc; [| right; exists e; reflexivity].
  left. exists combined, ranker, bm25_results.
  split; [exact Hi | split; [exact Hr | exact Hc]].
Qed.

(** With a document and weights whose sum is not zero, none of the three
    calls raises: the parameters of the ranker are the defaults. *)
Lemma fused_exists :
  all_docs <> [] -> semantic_weight + bm25_weight <> 0 ->
  exists combined, fused O semantic_docs all_docs question semantic_weight
        bm25_weight combined.
Proof.
  intros Hne Hw.
  destruct (RankerSpec.built_retrieve_Ok all_docs default_k1 default_b
              default_epsilon question 10
              ltac:(unfold default_k1; lra) ltac:(unfold default_b; lra))
    as (bm25_results & Hret).
  eexists. exists (built all_docs default_k1 default_b default_epsilon),
                  bm25_results.
  split; [apply init_built; exact Hne |].
  split; [exact Hret |].
  apply combine_results_Ok. exact Hw.
Qed.

(** Once the three calls have returned, only the indexing can raise. *)
Lemma select_loop_outcome (combined : list (Z * R)) :
  fused O semantic_docs all_docs question semantic_weight
        bm25_weight combined ->
  ChatRag.select_loop semantic_docs combined combined [] [] = Throw IndexError
  \/ exists out,
       ChatRag.select_loop semantic_docs combined combined [] [] = Return out.
Proof.
  intros Hf. destruct (fused_shape combined Hf) as [_ Hpos].
  destruct (select_loop_cases semantic_docs combined combined Hpos)
    as [[_ Hall] | [_ (docs & _ & Hret)]].
  - left. apply Hall.
  - right. eexists. apply Hret.
Qed.

(** X20. When the hybrid branch returns, it returns, for each of the (at
    most five) fused pairs whose index is below the number of semantic
    documents, the semantic document at that index and a score entry with
    that index; every such index is below the length of the fused list,
    hence below 5; and the hybrid score of the entry is the score found at
    position [index] of the fused list, which is the score of the pair
    ranked there and not in general the score of the document. *)
Theorem hybrid_branch_returns (relevant_docs : list D)
    (scores : list ChatRag.score_entry) :
  ChatRag.hybrid_branch O semantic_docs all_docs question
                        semantic_weight bm25_weight
  = Return (relevant_docs, scores) ->
  exists combined,
    fused O semantic_docs all_docs question semantic_weight
        bm25_weight combined
    /\ (length combined <= 5)%nat
    /\ Forall (fun p => (0 <= fst p < Z.of_nat (length combined))%Z)
              (chosen semantic_docs combined)
    /\ Forall2 (fun p d => nth_error semantic_docs (Z.to_nat (fst p)) = Some d)
               (chosen semantic_docs combined) relevant_docs
    /\ scores = map (reported combined) (chosen semantic_docs combined).
Proof.
  intros H.
  destruct hybrid_branch_cases as [(combined & Hf) | (e & He)];
    [| rewrite He in H; discriminate].
  exists combined. split; [exact Hf |].
  destruct (fused_shape combined Hf) as [Hlen Hpos].
  split; [exact Hlen |].
  rewrite (hybrid_branch_fused combined Hf) in H.
  destruct (select_loop_cases semantic_docs combined combined Hpos)
    as [[_ Hall] | [Hall (docs & H2 & Hret)]].
  - rewrite Hall in H. discriminate.
  - rewrite Hret in H. simpl in H. injection H as <- <-.
    split; [| split; [exact H2 | reflexivity]].
    apply Forall_forall. intros p I. split.
    + rewrite Forall_forall in Hpos. apply Hpos.
      unfold chosen in I. apply filter_In in I. apply I.
    + rewrite Forall_forall in Hall. apply Hall. exact I.
Qed.

(** X21. The hybrid branch raises [IndexError] exactly when its three
    calls return and a kept pair of the fused list (one whose index is
    below the number of semantic documents) has an index that is not a
    position of the fused list; a kept pair with an index of 5 or more is
    always such a pair. *)
Theorem hybrid_branch_index_error :
  (ChatRag.hybrid_branch O semantic_docs all_docs question
                         semantic_weight bm25_weight
   = Throw IndexError
   <-> exists combined p,
         fused O semantic_docs all_docs question semantic_weight
        bm25_weight combined /\ In p combined
         /\ (Z.of_nat (length combined) <= fst p
             < Z.of_nat (length semantic_docs))%Z)
  /\ (forall combined p,
        fused O semantic_docs all_docs question semantic_weight
        bm25_weight combined -> In p combined ->
        (5 <= fst p < Z.of_nat (length semantic_docs))%Z ->
        ChatRag.hybrid_branch O semantic_docs all_docs question
                              semantic_weight bm25_weight
        = Throw IndexError).
Proof.
  assert (Hif : forall combined p,
            fused O semantic_docs all_docs question semantic_weight
        bm25_weight combined -> In p combined ->
            (Z.of_nat (length combined) <= fst p
             < Z.of_nat (length semantic_docs))%Z ->
            ChatRag.hybrid_branch O semantic_docs all_docs question
                                  semantic_weight bm25_weight
            = Throw IndexError).
  { intros combined p Hf I [Hge Hlt].
    rewrite (hybrid_branch_fused combined Hf).
    destruct (fused_shape combined Hf) as [_ Hpos].
    destruct (select_loop_cases semantic_docs combined combined Hpos)
      as [[_ Hall] | [Hall _]]; [apply Hall |].
    exfalso. rewrite Forall_forall in Hall.
    assert (Ic : In p (chosen semantic_docs combined)).
    { unfold chosen. apply filter_In. split; [exact I |].
      apply Z.ltb_lt. exact Hlt. }
    specialize (Hall p Ic). simpl in Hall. lia. }
  split; [split |].
  - intros H.
    destruct hybrid_branch_cases as [(combined & Hf) | (e & He)];
      [| rewrite He in H; discriminate].
    rewrite (hybrid_branch_fused combined Hf) in H.
    destruct (fused_shape combined Hf) as [_ Hpos].
    destruct (select_loop_cases semantic_docs combined combined Hpos)
      as [[(p & Ip & Hp) _] | [_ (docs & _ & Hret)]].
    + exists combined, p. split; [exact Hf |].
      unfold chosen in Ip. apply filter_In in Ip. destruct Ip as [Ip Hlt].
      apply Z.ltb_lt in Hlt. split; [exact Ip | lia].
    + rewrite Hret in H. discriminate.
  - intros (combined & p & Hf & I & Hb). apply (Hif combined p Hf I Hb).
  - intros combined p Hf I [H5 Hlt]. apply (Hif combined p Hf I).
    destruct (fused_shape combined Hf) as [Hlen _]. lia.
Qed.

(** X22. The hybrid branch raises an arithmetic exception exactly when
    there is no document at all or the two weights sum to zero, and the
    exception is then [ZeroDivisionError]; with the default parameters of
    the ranker, no query makes the scoring divide by zero. *)
Theorem hybrid_branch_zero_division (e : exn) :
  ChatRag.hybrid_branch O semantic_docs all_docs question
                        semantic_weight bm25_weight
  = Throw (Builtin e)
  <-> e = ZeroDivisionError
      /\ (all_docs = [] \/ semantic_weight + bm25_weight = 0).
Proof.
  split.
  - intros H.
    destruct all_docs as [| d ds] eqn:Ed.
    + unfold ChatRag.hybrid_branch in H. rewrite init_empty in H.
      simpl in H. injection H as <-. auto.
    + destruct (Req_dec_T (semantic_weight + bm25_weight) 0) as [E | N].
      * unfold ChatRag.hybrid_branch in H.
        rewrite init_built in H by discriminate. simpl obind in H.
        destruct (RankerSpec.built_retrieve_Ok (d :: ds) default_k1
                    default_b default_epsilon question 10
                    ltac:(unfold default_k1; lra)
                    ltac:(unfold default_b; lra)) as (bm & Hbm).
        rewrite Hbm in H. simpl obind in H.
        unfold combine_results in H.
        rewrite (normalize_weights_zero _ _ E) in H. simpl in H.
        injection H as <-. auto.
      * exfalso. rewrite <- Ed in *.
        assert (Hne : all_docs <> []) by (rewrite Ed; discriminate).
        destruct (fused_exists Hne N) as (combined & Hf).
        rewrite (hybrid_branch_fused combined Hf) in H.
        destruct (select_loop_outcome combined Hf) as [Hl | (out & Hl)];
          rewrite Hl in H; discriminate.
  - intros [-> [E | E]].
    + rewrite E. unfold ChatRag.hybrid_branch. rewrite init_empty.
      reflexivity.
    + destruct all_docs as [| d ds].
      * unfold ChatRag.hybrid_branch. rewrite init_empty. reflexivity.
      * unfold ChatRag.hybrid_branch.
        rewrite init_built by discriminate. simpl obind.
        destruct (RankerSpec.built_retrieve_Ok (d :: ds) default_k1
                    default_b default_epsilon question 10
                    ltac:(unfold default_k1; lra)
                    ltac:(unfold default_b; lra)) as (bm & Hbm).
        rewrite Hbm. simpl obind.
        unfold combine_results.
        rewrite (normalize_weights_zero _ _ E). reflexivity.
Qed.

End Branch.

Lemma hybrid_branch_returns_witness :
  exists (relevant_docs : list unit) scores combined,
    ChatRag.hybrid_branch slot_order [tt] small_documents (str "a") 0.7 0.3
    = Return (relevant_docs, scores)
    /\ fused slot_order [tt] small_documents (str "a") 0.7 0.3 combined
    /\ (length combined <= 5)%nat
    /\ Forall (fun p => (0 <= fst p < Z.of_nat (length combined))%Z)
              (chosen [tt] combined)
    /\ Forall2 (fun p d => nth_error [tt] (Z.to_nat (fst p)) = Some d)
               (chosen [tt] combined) relevant_docs
    /\ scores = map (reported combined) (chosen [tt] combined).
Proof.
  destruct (fused_exists slot_order [tt] small_documents (str "a") 0.7 0.3
              ltac:(discriminate) ltac:(lra)) as (combined & Hf).
  destruct (fused_shape _ _ _ _ _ _ combined Hf) as [_ Hpos].
  destruct (select_loop_cases [tt] combined combined Hpos)
    as [[(p & Ip & Hp) _] | [_ (docs & _ & Hret)]].
  - exfalso. unfold chosen in Ip. apply filter_In in Ip.
    destruct Ip as [Ip Hlt]. apply Z.ltb_lt in Hlt. simpl in Hlt.
    rewrite Forall_forall in Hpos. specialize (Hpos p Ip). simpl in Hpos.
    destruct combined; [destruct Ip | simpl length in Hp; lia].
  - assert (Hb : ChatRag.hybrid_branch slot_order [tt] small_documents
                   (str "a") 0.7 0.3
                 = Return ([] ++ docs,
                           [] ++ map (reported combined)
                                     (chosen [tt] combined))).
    { rewrite (hybrid_branch_fused _ _ _ _ _ _ combined Hf). apply Hret. }
    destruct (hybrid_branch_returns slot_order [tt] small_documents
                (str "a") 0.7 0.3 _ _ Hb) as (c & H1 & H2 & H3 & H4 & H5).
    exists ([] ++ docs), ([] ++ map (reported combined) (chosen [tt] combined)),
           c.
    split; [exact Hb |].
    split; [exact H1 |]. split; [exact H2 |]. split; [exact H3 |].
    split; [exact H4 | exact H5].
Defined.

End ChatRagSpec.

(* ================================================================== *)
(** ** The fusion scenarios and the weights, in binary64 *)
(* ================================================================== *)

Module Binary64Spec.

Import PrimFloat.
Local Open Scope float_scope.

(** The iteration order of a set of three indices is one of their six
    arrangements. *)
Lemma union_of_three (O : SetOrder) (a b : list Z) (x y z : Z) :
  x <> y -> x <> z -> y <> z ->
  (forall i, In i a \/ In i b <-> i = x \/ i = y \/ i = z) ->
  union_iter O a b = [x; y; z] \/ union_iter O a b = [x; z; y]
  \/ union_iter O a b = [y; x; z] \/ union_iter O a b = [y; z; x]
  \/ union_iter O a b = [z; x; y] \/ union_iter O a b = [z; y; x].
Proof.
  intros Hxy Hxz Hyz HIn.
  pose proof (union_iter_NoDup O a b) as Hnd.
  assert (Hin : forall i, In i (union_iter O a b)
                          <-> i = x \/ i = y \/ i = z).
  { intros i. rewrite union_iter_In. apply HIn. }
  assert (Hl : length (union_iter O a b) = 3%nat).
  { apply (Permutation_length (l' := [x; y; z])).
    apply NoDup_Permutation; [exact Hnd | |].
    - repeat constructor; simpl; intuition congruence.
    - intros i. rewrite Hin. simpl. intuition congruence. }
  destruct (union_iter O a b) as [| u [| v [| w [| ? ?]]]];
    try discriminate Hl.
  pose proof (proj1 (Hin u) (or_introl eq_refl)) as Hu.
  pose proof (proj1 (Hin v) (or_intror (or_introl eq_refl))) as Hv.
  pose proof (proj1 (Hin w) (or_intror (or_intror (or_introl eq_refl))))
    as Hw.
  inversion Hnd as [| ? ? N1 Hnd']; subst.
  inversion Hnd' as [| ? ? N2 _]; subst.
  simpl in N1, N2.
  destruct Hu as [-> | [-> | ->]], Hv as [-> | [-> | ->]],
    Hw as [-> | [-> | ->]];
    first [ exfalso; apply N1; auto; fail
          | exfalso; apply N2; auto; fail
          | auto 10 ].
Qed.

(** *** The fusion scenario *)

(** C1, as the specification states it, fails: the program computes the
    fused scores in binary64, and the scores of the indices 0 and 1 come
    out as 0.9199999999999999 and 0.48999999999999994, not as 0.92 and
    0.49 (shown for CPython's iteration order of the index set). *)
Lemma fusion_scenario_counterexample :
  Binary64.combine_results slot_order
    [(0%Z, 0.95); (1%Z, 0.70)] [(0%Z, 0.85); (2%Z, 0.65)] 0.7 0.3 3
  = Ok [(0%Z, 0.9199999999999999); (1%Z, 0.48999999999999994);
        (2%Z, 0.195)]
  /\ Binary64.combine_results slot_order
       [(0%Z, 0.95); (1%Z, 0.70)] [(0%Z, 0.85); (2%Z, 0.65)] 0.7 0.3 3
     <> Ok [(0%Z, 0.92); (1%Z, 0.49); (2%Z, 0.195)].
Proof.
  split; [vm_compute; reflexivity |].
  intros H.
  apply (f_equal (fun r => match r with
                           | Ok ((_, s) :: _) => (s =? 0.92)
                           | _ => false
                           end)) in H.
  vm_compute in H. discriminate.
Qed.

(** C1, amended. In the fusion scenario (lists [(0,0.95),(1,0.70)] and
    [(0,0.85),(2,0.65)], weights 0.7 and 0.3, [top_k] = 3) the result has
    exactly three pairs, in the order of the indices 0, 1, 2, whatever the
    iteration order of the index set; their fused scores are the binary64
    values of 0.7*0.95+0.3*0.85, 0.7*0.7+0.3*0 and 0.7*0+0.3*0.65, which
    are 0.9199999999999999, 0.48999999999999994 and 0.195: the first two
    are the floats next below 0.92 and 0.49. *)
Theorem fusion_scenario_result (O : SetOrder) :
  Binary64.combine_results O
    [(0%Z, 0.95); (1%Z, 0.70)] [(0%Z, 0.85); (2%Z, 0.65)] 0.7 0.3 3
  = Ok [(0%Z, 0.9199999999999999); (1%Z, 0.48999999999999994);
        (2%Z, 0.195)]
  /\ 0.7 * 0.95 + 0.3 * 0.85 = 0.9199999999999999
  /\ 0.7 * 0.7 + 0.3 * 0 = 0.48999999999999994
  /\ 0.7 * 0 + 0.3 * 0.65 = 0.195
  /\ next_up 0.9199999999999999 = 0.92
  /\ next_up 0.48999999999999994 = 0.49.
Proof.
  split; [| repeat split; vm_compute; reflexivity].
  unfold Binary64.combine_results.
  change (Binary64.keys (Binary64.dict [(0%Z, 0.95); (1%Z, 0.70)]))
    with [0%Z; 1%Z].
  change (Binary64.keys (Binary64.dict [(0%Z, 0.85); (2%Z, 0.65)]))
    with [0%Z; 2%Z].
  destruct (union_of_three O [0%Z; 1%Z] [0%Z; 2%Z] 0 1 2
              ltac:(lia) ltac:(lia) ltac:(lia)) as [E | [E | [E | [E | [E | E]]]]];
    [simpl; intuition lia | | | | | |];
    rewrite E; vm_compute; reflexivity.
Qed.

(** *** The weights *)




(** *** Scaling the weights *)



End Binary64Spec.
